(** * Login.jsx / Signup.jsx: the client-side authentication flow

    A shallow embedding of the two React components of
    [src/components/auth/Login.jsx] — their validation rules, the password
    strength meter, the submit handlers with their [try]/[catch]/[finally]
    and the mount effects — and the properties of the specification checked
    against it.

    JavaScript strings are sequences of UTF-16 code units; they are modelled
    as [list N], so that [length] is JavaScript's [.length] and the white
    space class is the one of [String.prototype.trim] and of [\s]. *)

From Stdlib Require Import NArith String Ascii List Bool Lia.
From stdpp Require Import gmap strings list.
Import ListNotations.

(** ** JavaScript strings and values *)

Abbreviation jsstring := (list N).

(** A string literal of the source, as its code units. *)
Fixpoint str (s : string) : jsstring :=
  match s with
  | EmptyString => []
  | String a s' => N_of_ascii a :: str s'
  end.

(** WhiteSpace and LineTerminator of ECMAScript: the code units removed by
    [trim] and matched by [\s]. *)
Definition isWhiteSpace (c : N) : bool :=
  (((9 <=? c) && (c <=? 13))     (* \t \n \v \f \r *)
  || (c =? 32)                   (* space *)
  || (c =? 160)                  (* U+00A0 *)
  || (c =? 5760)                 (* U+1680 *)
  || ((8192 <=? c) && (c <=? 8202))  (* U+2000 .. U+200A *)
  || (c =? 8232) || (c =? 8233)  (* U+2028, U+2029 *)
  || (c =? 8239)                 (* U+202F *)
  || (c =? 8287)                 (* U+205F *)
  || (c =? 12288)                (* U+3000 *)
  || (c =? 65279))%N.            (* U+FEFF *)

Fixpoint trimStart (s : jsstring) : jsstring :=
  match s with
  | [] => []
  | c :: s' => if isWhiteSpace c then trimStart s' else s
  end.

Definition trimEnd (s : jsstring) : jsstring := rev (trimStart (rev s)).

(** [String.prototype.trim] *)
Definition trim (s : jsstring) : jsstring := trimEnd (trimStart s).

(** The values that occur as properties of the parsed response and of the
    router's location state: absent ([undefined]), [null], or a string. *)
Inductive JsVal :=
| JUndefined
| JNull
| JString (s : jsstring).

#[global] Instance JsVal_eq_dec : EqDecision JsVal.
Proof. solve_decision. Defined.

(** ToBoolean: a string is truthy when it is not empty. *)
Definition truthy (v : JsVal) : bool :=
  match v with
  | JString (_ :: _) => true
  | _ => false
  end.

(** ToString, as applied by [localStorage.setItem] and [new Error]. *)
Definition ToString (v : JsVal) : jsstring :=
  match v with
  | JUndefined => str "undefined"
  | JNull => str "null"
  | JString s => s
  end.

(** [a || b] *)
Definition js_or (a b : JsVal) : JsVal := if truthy a then a else b.

(** [a === b] *)
Definition strict_eq (a b : JsVal) : bool := bool_decide (a = b).

(** [!s] for a string [s] *)
Definition falsy_string (s : jsstring) : bool :=
  match s with [] => true | _ => false end.

(** ** Regular expressions

    The three character-class tests of the strength meter and the e-mail
    pattern, as regular expressions over classes of code units, matched by
    Brzozowski derivatives. *)

Inductive regex :=
| Void
| Eps
| Class (p : N -> bool)
| Cat (r1 r2 : regex)
| Alt (r1 r2 : regex)
| Star (r : regex).

Fixpoint nullable (r : regex) : bool :=
  match r with
  | Void => false
  | Eps => true
  | Class _ => false
  | Cat r1 r2 => nullable r1 && nullable r2
  | Alt r1 r2 => nullable r1 || nullable r2
  | Star _ => true
  end.

Fixpoint deriv (c : N) (r : regex) : regex :=
  match r with
  | Void => Void
  | Eps => Void
  | Class p => if p c then Eps else Void
  | Cat r1 r2 =>
      if nullable r1
      then Alt (Cat (deriv c r1) r2) (deriv c r2)
      else Cat (deriv c r1) r2
  | Alt r1 r2 => Alt (deriv c r1) (deriv c r2)
  | Star r1 => Cat (deriv c r1) (Star r1)
  end.

(** The whole of [s] matches [r]: a pattern written [/^r$/]. *)
Fixpoint matches (r : regex) (s : jsstring) : bool :=
  match s with
  | [] => nullable r
  | c :: s' => matches (deriv c r) s'
  end.

(** [r+] *)
Definition Plus (r : regex) : regex := Cat r (Star r).

Definition anything : regex := Star (Class (fun _ => true)).

(** [/r/.test(s)] for a pattern without anchors: some substring matches. *)
Definition test_unanchored (r : regex) (s : jsstring) : bool :=
  matches (Cat anything (Cat r anything)) s.

Definition is_char (a : ascii) (c : N) : bool := (c =? N_of_ascii a)%N.

Definition between (lo hi : ascii) (c : N) : bool :=
  ((N_of_ascii lo <=? c) && (c <=? N_of_ascii hi))%N.

(** [[A-Z]] *)
Definition isUpper : N -> bool := between "A" "Z".
(** [[0-9]] *)
Definition isDigit : N -> bool := between "0" "9".
(** [[^A-Za-z0-9]] *)
Definition isNonAlnum (c : N) : bool :=
  negb (between "A" "Z" c || between "a" "z" c || between "0" "9" c).
(** [[^\s@]] *)
Definition notSpaceAt (c : N) : bool :=
  negb (isWhiteSpace c || is_char "@" c).

(** [/^[^\s@]+@[^\s@]+\.[^\s@]+$/] *)
Definition emailRegex : regex :=
  Cat (Plus (Class notSpaceAt))
    (Cat (Class (is_char "@"))
       (Cat (Plus (Class notSpaceAt))
          (Cat (Class (is_char "."))
             (Plus (Class notSpaceAt))))).

(** The language of a regular expression, against which the matcher is
    justified. *)
Inductive lang : regex -> jsstring -> Prop :=
| lang_eps : lang Eps []
| lang_class p c : p c = true -> lang (Class p) [c]
| lang_cat r1 r2 s1 s2 :
    lang r1 s1 -> lang r2 s2 -> lang (Cat r1 r2) (s1 ++ s2)
| lang_alt_l r1 r2 s : lang r1 s -> lang (Alt r1 r2) s
| lang_alt_r r1 r2 s : lang r2 s -> lang (Alt r1 r2) s
| lang_star_nil r : lang (Star r) []
| lang_star_app r s1 s2 :
    lang r s1 -> lang (Star r) s2 -> lang (Star r) (s1 ++ s2).

(** ** The password strength meter (Signup.evaluatePasswordStrength) *)

Record PasswordStrength := {
  score : nat;
  message : jsstring;
  color : jsstring
}.

Definition bump (b : bool) (score : nat) : nat :=
  if b then score + 1 else score.

(** The value passed to [setPasswordStrength]. *)
Definition evaluatePasswordStrength (password : jsstring) : PasswordStrength :=
  if falsy_string password then
    {| score := 0; message := str ""; color := str "gray" |}
  else
    let score := 0 in
    let score := bump (8 <=? length password) score in
    let score := bump (12 <=? length password) score in
    let score := bump (test_unanchored (Class isUpper) password) score in
    let score := bump (test_unanchored (Class isDigit) password) score in
    let score := bump (test_unanchored (Class isNonAlnum) password) score in
    if score <? 2 then
      {| score := score; message := str "Weak"; color := str "red" |}
    else if score <? 4 then
      {| score := score; message := str "Moderate"; color := str "yellow" |}
    else
      {| score := score; message := str "Strong"; color := str "green" |}.


(** ** Effects of the handlers

    What a handler does to the outside: React state setters, the network,
    [localStorage], the AuthContext, the router and the console. A handler
    is a function to the list of its effects, in program order. *)

Inductive JsError :=
| TypeError                    (* a property read on [null] *)
| SyntaxError                  (* [res.json()] on a body that is not JSON *)
| FetchFailure                 (* [fetch] rejects: the network failed *)
| Error (message : jsstring).  (* [new Error(message)] *)

Inductive Effect :=
| SetError (msg : jsstring)
| SetLoading (b : bool)
| Fetch (url : string) (body : list (string * JsVal))
| SetItem (key : string) (value : jsstring)
| AuthLogin (email : jsstring)   (* [login(email)] of the AuthContext *)
| AuthSignup                     (* [signup()] of the AuthContext *)
| Navigate (to : JsVal)
| ConsoleError (label : string) (err : JsError).

(** A [try] block: the effects done so far, and either the exception that
    ended it or its result. *)
Definition Try (A : Type) : Type := list Effect * (JsError + A).

Definition ret {A} (a : A) : Try A := ([], inr a).

Definition throw {A} (err : JsError) : Try A := ([], inl err).

Definition emit (e : Effect) : Try unit := ([e], inr tt).

Definition bind {A B} (m : Try A) (k : A -> Try B) : Try B :=
  match m with
  | (es, inl err) => (es, inl err)
  | (es, inr a) => let '(es', r) := k a in (es ++ es', r)
  end.

Notation "x <- m ;; k" := (bind m (fun x => k))
  (at level 100, m at next level, right associativity).
Notation "m ;; k" := (bind m (fun _ => k))
  (at level 100, right associativity).

(** [try { body } catch (err) { handler } finally { fin }] *)
Definition try_catch_finally
    (body : Try unit) (handler : JsError -> list Effect) (fin : list Effect)
    : list Effect :=
  match body with
  | (es, inr _) => es ++ fin
  | (es, inl err) => es ++ handler err ++ fin
  end.

(** An [async] handler runs to completion, or up to its [await fetch(...)],
    where it leaves the rest of its body waiting for the outcome. *)
Inductive Run (Outcome : Type) :=
| Done (es : list Effect)
| Await (es : list Effect) (k : Outcome -> list Effect).
Arguments Done {Outcome} es.
Arguments Await {Outcome} es k.

(** *** The auth service, seen from the client *)

(** The properties of the parsed response that matter. The handlers read
    [message], [token] and [role]; [email] is part of the response shape
    and is never read. *)
Record ResponseData := {
  d_message : JsVal;
  d_token : JsVal;
  d_role : JsVal;
  d_email : JsVal
}.

(** The parsed body: [null], or a value whose properties can be read. *)
Inductive Json :=
| JsonNull
| JsonObject (d : ResponseData).

Inductive Body :=
| Malformed               (* [res.json()] rejects *)
| Parsed (data : Json).

(** How [await fetch(...)] ends. *)
Inductive FetchOutcome :=
| NetworkFailure
| Response (ok : bool) (body : Body).

(** [await fetch(...)] *)
Definition awaitFetch (o : FetchOutcome) : Try (bool * Body) :=
  match o with
  | NetworkFailure => throw FetchFailure
  | Response ok body => ret (ok, body)
  end.

(** [await res.json()] *)
Definition awaitJson (b : Body) : Try Json :=
  match b with
  | Malformed => throw SyntaxError
  | Parsed data => ret data
  end.

(** [data.p] *)
Definition prop (data : Json) (p : ResponseData -> JsVal) : Try JsVal :=
  match data with
  | JsonNull => throw TypeError
  | JsonObject d => ret (p d)
  end.

(** *** The router's location *)

Record LocationState := {
  ls_role : JsVal;
  ls_from : JsVal
}.

(** [location.state?.p] *)
Definition optional_chain
    (state : option LocationState) (p : LocationState -> JsVal) : JsVal :=
  match state with
  | None => JUndefined
  | Some st => p st
  end.

(** [role === "admin" ? "/admin/dashboard" : "/user/dashboard"] *)
Definition dashboard (role : JsVal) : JsVal :=
  if strict_eq role (JString (str "admin"))
  then JString (str "/admin/dashboard")
  else JString (str "/user/dashboard").

(** *** localStorage and the effect run on mount *)

(** [localStorage.getItem(key)] *)
Definition getItem (storage : gmap string jsstring) (key : string) : JsVal :=
  match storage !! key with
  | Some v => JString v
  | None => JNull
  end.

(** The second [useEffect] of both components: "Redirects authenticated
    users to appropriate dashboard". *)
Definition checkExistingAuth (storage : gmap string jsstring) : list Effect :=
  let token := getItem storage "token" in
  if truthy token then
    let userRole := getItem storage "userRole" in
    [Navigate (dashboard userRole)]
  else [].

(** *** What the handlers act on *)

Record World := {
  error : jsstring;                            (* React state [error] *)
  loading : bool;                              (* React state [loading] *)
  storage : gmap string jsstring;              (* [localStorage] *)
  requests : list (string * list (string * JsVal));  (* [fetch] calls made *)
  destinations : list JsVal                    (* [navigate] calls made *)
}.

(** One effect applied. The AuthContext and the console are outside the
    component: their calls leave its world as it is. *)
Definition perform (w : World) (e : Effect) : World :=
  match e with
  | SetError msg =>
      {| error := msg; loading := loading w; storage := storage w;
         requests := requests w; destinations := destinations w |}
  | SetLoading b =>
      {| error := error w; loading := b; storage := storage w;
         requests := requests w; destinations := destinations w |}
  | Fetch url body =>
      {| error := error w; loading := loading w; storage := storage w;
         requests := requests w ++ [(url, body)];
         destinations := destinations w |}
  | SetItem key value =>
      {| error := error w; loading := loading w;
         storage := <[key := value]> (storage w);
         requests := requests w; destinations := destinations w |}
  | Navigate to =>
      {| error := error w; loading := loading w; storage := storage w;
         requests := requests w; destinations := destinations w ++ [to] |}
  | AuthLogin _ | AuthSignup | ConsoleError _ _ => w
  end.

Definition run (es : list Effect) (w : World) : World :=
  fold_left perform es w.

(** The world of a component just mounted on storage [st]:
    [useState("")], [useState(false)], nothing requested, no navigation. *)
Definition fresh (st : gmap string jsstring) : World :=
  {| error := str ""; loading := false; storage := st;
     requests := []; destinations := [] |}.

(** The children of the card that a render returns. Only the alert is
    conditional ([{error && (...)}]). *)
Inductive Element :=
| Heading (text : jsstring)
| Alert (text : jsstring)
| Form (values : list jsstring) (submitDisabled : bool) (submitLabel : jsstring)
| Links.

Definition is_form (e : Element) : bool :=
  match e with Form _ _ _ => true | _ => false end.

(** ** The Login component *)

Module Login.

(** What one render closes over: the two inputs and the location. *)
Record Closure := {
  email : jsstring;
  password : jsstring;
  location_state : option LocationState
}.

(** [const role = location.state?.role || "user"] *)
Definition role (c : Closure) : JsVal :=
  js_or (optional_chain (location_state c) ls_role) (JString (str "user")).

(** [const from = location.state?.from || "/"] *)
Definition from (c : Closure) : JsVal :=
  js_or (optional_chain (location_state c) ls_from) (JString (str "/")).

(** The body of the [try] block from the point where [fetch] settles. *)
Definition afterFetch (c : Closure) (o : FetchOutcome) : Try unit :=
  res <- awaitFetch o ;;
  let '(ok, body) := res in
  data <- awaitJson body ;;
  (if negb ok then
     msg <- prop data d_message ;;
     throw (Error (ToString (js_or msg (JString (str "Login failed")))))
   else ret tt) ;;
  token <- prop data d_token ;;
  emit (SetItem "token" (ToString token)) ;;
  userRole <- prop data d_role ;;
  emit (SetItem "userRole" (ToString userRole)) ;;
  emit (SetItem "email" (email c)) ;;
  emit (AuthLogin (email c)) ;;
  r <- prop data d_role ;;
  emit (Navigate (if negb (strict_eq (from c) (JString (str "/")))
                  then from c
                  else dashboard r)).

Definition onCatch (err : JsError) : list Effect :=
  [ConsoleError "Login error:" err;
   SetError (str "An unexpected error occurred. Please try again.")].

(** The check at the head of [handleSubmit]: its message, if it returns. *)
Definition validationError (c : Closure) : option jsstring :=
  if falsy_string (trim (email c)) || falsy_string (trim (password c)) then
    Some (str "Email and password are required")
  else None.

Definition handleSubmit (c : Closure) : Run FetchOutcome :=
  match validationError c with
  | Some msg => Done [SetError msg]
  | None =>
      Await
        [SetError (str "");
         SetLoading true;
         Fetch "http://localhost:5000/api/auth/login"
           [("email", JString (email c));
            ("password", JString (password c));
            ("role", role c)]]
        (fun o => try_catch_finally (afterFetch c o) onCatch [SetLoading false])
  end.

(** The JSX returned by the component. *)
Definition render (c : Closure) (w : World) : list Element :=
  [Heading (if strict_eq (role c) (JString (str "admin"))
            then str "Admin Login" else str "User Login")]
  ++ (if falsy_string (error w) then [] else [Alert (error w)])
  ++ [Form [email c; password c] (loading w)
        (if loading w then str "Logging in..." else str "Login")]
  ++ [Links].

End Login.

(** ** The Signup component *)

Module Signup.

Record FormData := {
  fullName : jsstring;
  email : jsstring;
  password : jsstring;
  confirmPassword : jsstring
}.

(** What one render closes over: the form, the chosen role and the
    location (of which the handler reads nothing). *)
Record Closure := {
  formData : FormData;
  role : JsVal;
  location_state : option LocationState
}.

(** [useState("user")], then
    [location.state?.role && setRole(location.state?.role)] on mount. *)
Definition roleOnMount (state : option LocationState) : JsVal :=
  let r := optional_chain state ls_role in
  if truthy r then r else JString (str "user").

(** The checks at the head of [handleSubmit]: the message of the first
    one that returns, if any. *)
Definition validationError (f : FormData) : option jsstring :=
  if falsy_string (trim (fullName f)) then
    Some (str "Full name is required")
  else if falsy_string (trim (email f)) then
    Some (str "Email is required")
  else if negb (matches emailRegex (email f)) then
    Some (str "Please enter a valid email address")
  else if negb (bool_decide (password f = confirmPassword f)) then
    Some (str "Passwords do not match")
  else if length (password f) <? 6 then
    Some (str "Password must be at least 6 characters")
  else None.

(** The body of the [try] block from the point where [fetch] settles. *)
Definition afterFetch (c : Closure) (o : FetchOutcome) : Try unit :=
  res <- awaitFetch o ;;
  let '(ok, body) := res in
  data <- awaitJson body ;;
  (if negb ok then
     msg <- prop data d_message ;;
     throw (Error (ToString (js_or msg (JString (str "Registration failed")))))
   else ret tt) ;;
  emit AuthSignup ;;
  token <- prop data d_token ;;
  emit (SetItem "token" (ToString token)) ;;
  emit (SetItem "userRole" (ToString (role c))) ;;
  emit (SetItem "email" (email (formData c))) ;;
  emit (Navigate (dashboard (role c))).

Definition onCatch (err : JsError) : list Effect :=
  [ConsoleError "Registration error:" err;
   SetError (str "Failed to create an account. Please try again.")].

Definition handleSubmit (c : Closure) : Run FetchOutcome :=
  match validationError (formData c) with
  | Some msg => Done [SetError (str ""); SetError msg]
  | None =>
      Await
        [SetError (str "");
         SetLoading true;
         Fetch "http://localhost:5000/api/auth/register"
           [("fullName", JString (fullName (formData c)));
            ("email", JString (email (formData c)));
            ("password", JString (password (formData c)));
            ("role", role c)]]
        (fun o => try_catch_finally (afterFetch c o) onCatch [SetLoading false])
  end.

(** The JSX returned by the component (the strength bar and the match
    hint inside the form are left out). *)
Definition render (c : Closure) (w : World) : list Element :=
  [Heading (if strict_eq (role c) (JString (str "admin"))
            then str "Admin Registration" else str "User Registration")]
  ++ (if falsy_string (error w) then [] else [Alert (error w)])
  ++ [Form [fullName (formData c); email (formData c);
            password (formData c); confirmPassword (formData c)]
        (loading w)
        (if loading w then str "Creating Account..." else str "Sign Up")]
  ++ [Links].

End Signup.

(** ** A mounted form

    The life of one form instance: the user edits the inputs, submits, and
    pending requests settle. The submit button carries [disabled={loading}],
    and the browser submits a form neither through a disabled button nor
    implicitly (Enter) while its submit button is disabled; React applies
    the state updates of a handler before the next event is handled. *)

Section Form.

Context {Closure : Type}.
Variable handleSubmit : Closure -> Run FetchOutcome.

Record FormState := {
  world : World;
  inputs : Closure;
  waiting : list (FetchOutcome -> list Effect)  (* handlers at their [await] *)
}.

Inductive Event :=
| Edit (c : Closure)
| Submit
| Settle (o : FetchOutcome).

(** [disabled={loading}] *)
Definition submitDisabled (s : FormState) : bool := loading (world s).

Definition step (s : FormState) (ev : Event) : FormState :=
  match ev with
  | Edit c => {| world := world s; inputs := c; waiting := waiting s |}
  | Submit =>
      if submitDisabled s then s
      else
        match handleSubmit (inputs s) with
        | Done es =>
            {| world := run es (world s); inputs := inputs s;
               waiting := waiting s |}
        | Await es k =>
            {| world := run es (world s); inputs := inputs s;
               waiting := waiting s ++ [k] |}
        end
  | Settle o =>
      match waiting s with
      | [] => s
      | k :: ks =>
          {| world := run (k o) (world s); inputs := inputs s;
             waiting := ks |}
      end
  end.

Definition exec (evs : list Event) (s : FormState) : FormState :=
  fold_left step evs s.

(** A freshly mounted form, after the mount effect has run on the
    storage found. *)
Definition mounted (c : Closure) (st : gmap string jsstring) : FormState :=
  {| world := run (checkExistingAuth st) (fresh st);
     inputs := c;
     waiting := [] |}.

(** A submit event that the form takes up and that leads to a request. *)
Definition accepted (s : FormState) : bool :=
  negb (submitDisabled s)
  && match handleSubmit (inputs s) with
     | Await _ _ => true
     | Done _ => false
     end.

(** The rest of a handler, once its request settles, lowers the loading
    flag and makes no request of its own. *)
Definition settles_cleanly (k : FetchOutcome -> list Effect) : Prop :=
  forall o w,
    loading (run (k o) w) = false /\ requests (run (k o) w) = requests w.

(** The shape the two submit handlers share: a run that ends at once
    touches neither the loading flag nor the network; a run that awaits
    has raised the flag and made one request, and settles cleanly. *)
Definition flag_discipline : Prop :=
  forall c,
    match handleSubmit c with
    | Done es =>
        forall w,
          loading (run es w) = loading w
          /\ requests (run es w) = requests w
    | Await es k =>
        (forall w,
           loading (run es w) = true
           /\ length (requests (run es w)) = S (length (requests w)))
        /\ settles_cleanly k
    end.

(** The loading flag is up exactly while one handler waits at its
    [await]; no more than one ever does. *)
Definition one_in_flight (s : FormState) : Prop :=
  length (waiting s) = (if loading (world s) then 1 else 0)
  /\ Forall settles_cleanly (waiting s).

End Form.

Arguments Edit {Closure} c.
Arguments Submit {Closure}.
Arguments Settle {Closure} o.

(** The worlds a list of effects passes through, the first one included. *)
Fixpoint history (es : list Effect) (w : World) : list World :=
  match es with
  | [] => [w]
  | e :: es' => w :: history es' (perform w e)
  end.

Definition is_fetch (e : Effect) : bool :=
  match e with Fetch _ _ => true | _ => false end.

Definition is_setItem (e : Effect) : bool :=
  match e with SetItem _ _ => true | _ => false end.

(** The effects of a whole attempt whose request, if one is made, settles
    with [o]. *)
Definition attempt (r : Run FetchOutcome) (o : FetchOutcome) : list Effect :=
  match r with
  | Done es => es
  | Await es k => es ++ k o
  end.

(** A response with a success status and a body whose properties can be
    read. *)
Definition success (d : ResponseData) : FetchOutcome :=
  Response true (Parsed (JsonObject d)).

(** ** The specification's vocabulary *)

(** The outcomes of the AuthClient of the specification: a response with a
    success status and a readable body is an AuthResult; a response with
    another status and a readable body is [Rejected] with the server's
    message or the flow's fallback; everything else is a [TransportError]. *)
Inductive AuthError :=
| Rejected (message : jsstring)
| TransportError.

Definition authResult (fallback : jsstring) (o : FetchOutcome)
    : AuthError + ResponseData :=
  match o with
  | Response true (Parsed (JsonObject d)) => inr d
  | Response false (Parsed (JsonObject d)) =>
      inl (Rejected (ToString (js_or (d_message d) (JString fallback))))
  | _ => inl TransportError
  end.

(** The Session of the specification equal to the AuthResult, field for
    field, as the three entries of [localStorage]. *)
Definition session_is_AuthResult
    (st : gmap string jsstring) (d : ResponseData) : Prop :=
  st !! "token" = Some (ToString (d_token d))
  /\ st !! "userRole" = Some (ToString (d_role d))
  /\ st !! "email" = Some (ToString (d_email d)).

(** Destination resolution as the specification orders it: the intended
    destination if present and not the root path, else the dashboard of
    the role. *)
Definition resolveDestination (intended role : JsVal) : JsVal :=
  if truthy intended && negb (strict_eq intended (JString (str "/")))
  then intended
  else dashboard role.

(** The validation errors of the specification, and the checks of
    [validateSignup] in the order the specification lists them. *)
Inductive ValidationError :=
| EmptyField (field : string)
| InvalidEmailFormat
| PasswordMismatch
| PasswordTooShort.

Definition signupChecks : list (ValidationError * (Signup.FormData -> bool)) :=
  [ (EmptyField "fullName",
      fun f => bool_decide (trim (Signup.fullName f) = []));
    (EmptyField "email",
      fun f => bool_decide (trim (Signup.email f) = []));
    (InvalidEmailFormat,
      fun f => negb (matches emailRegex (Signup.email f)));
    (PasswordMismatch,
      fun f => bool_decide (Signup.password f <> Signup.confirmPassword f));
    (PasswordTooShort,
      fun f => length (Signup.password f) <? 6) ].

(** The first check of the list that fails on [a]. *)
Definition firstFailure {A} (checks : list (ValidationError * (A -> bool)))
    (a : A) : option ValidationError :=
  fst <$> List.find (fun chk => snd chk a) checks.

(** All the checks of the list that fail on [a]. *)
Definition failures {A} (checks : list (ValidationError * (A -> bool)))
    (a : A) : list ValidationError :=
  fst <$> List.filter (fun chk => snd chk a) checks.

(** The message the signup form shows for each error. *)
Definition signupMessage (e : ValidationError) : jsstring :=
  match e with
  | EmptyField "fullName" => str "Full name is required"
  | EmptyField _ => str "Email is required"
  | InvalidEmailFormat => str "Please enter a valid email address"
  | PasswordMismatch => str "Passwords do not match"
  | PasswordTooShort => str "Password must be at least 6 characters"
  end.

(** The tiers of the specification, and the score as the specification
    adds it up. *)
Inductive Tier := none | weak | moderate | strong.

Definition indicator (b : bool) : nat := if b then 1 else 0.

Definition specScore (password : jsstring) : nat :=
  indicator (8 <=? length password)
  + indicator (12 <=? length password)
  + indicator (existsb isUpper password)
  + indicator (existsb isDigit password)
  + indicator (existsb isNonAlnum password).

Definition specTier (password : jsstring) : Tier :=
  match password with
  | [] => none
  | _ =>
      if specScore password <? 2 then weak
      else if specScore password <? 4 then moderate
      else strong
  end.

(** How the meter shows a tier: its message and its colour. *)
Definition tierMessage (t : Tier) : jsstring :=
  match t with
  | none => str ""
  | weak => str "Weak"
  | moderate => str "Moderate"
  | strong => str "Strong"
  end.

Definition tierColor (t : Tier) : jsstring :=
  match t with
  | none => str "gray"
  | weak => str "red"
  | moderate => str "yellow"
  | strong => str "green"
  end.

(** ** The signup form's inputs and its two hints

    The state behind the inputs of the signup form ([formData],
    [passwordStrength], [role]), the change handlers, and the two pieces of
    JSX that depend on the passwords: the strength indicator and the match
    hint. *)

Module SignupInputs.

Record State := {
  formData : Signup.FormData;
  passwordStrength : PasswordStrength;
  role : JsVal
}.

(** The three [useState] initial values, and the role after the first
    mount effect. *)
Definition initial (state : option LocationState) : State :=
  {| formData :=
       {| Signup.fullName := str ""; Signup.email := str "";
          Signup.password := str ""; Signup.confirmPassword := str "" |};
     passwordStrength :=
       {| score := 0; message := str ""; color := str "gray" |};
     role := Signup.roleOnMount state |}.

(** [{ ...prevData, [name]: value }] on the four properties the component
    reads; any other name adds a property that nothing reads. *)
Definition setField (name : string) (value : jsstring)
    (f : Signup.FormData) : Signup.FormData :=
  {| Signup.fullName :=
       if bool_decide (name = "fullName") then value else Signup.fullName f;
     Signup.email :=
       if bool_decide (name = "email") then value else Signup.email f;
     Signup.password :=
       if bool_decide (name = "password") then value else Signup.password f;
     Signup.confirmPassword :=
       if bool_decide (name = "confirmPassword") then value
       else Signup.confirmPassword f |}.

(** [handleChange] on an event whose target has this [name] and [value]. *)
Definition handleChange (name : string) (value : jsstring) (s : State)
    : State :=
  {| formData := setField name value (formData s);
     passwordStrength :=
       if bool_decide (name = "password")
       then evaluatePasswordStrength value
       else passwordStrength s;
     role := role s |}.

(** [onChange={(e) => setRole(e.target.value)}] of the role select. *)
Definition selectRole (value : jsstring) (s : State) : State :=
  {| formData := formData s; passwordStrength := passwordStrength s;
     role := JString value |}.

Inductive Input :=
| Change (name : string) (value : jsstring)
| SelectRole (value : jsstring).

Definition input (s : State) (i : Input) : State :=
  match i with
  | Change name value => handleChange name value s
  | SelectRole value => selectRole value s
  end.

Definition inputs (ins : list Input) (s : State) : State :=
  fold_left input ins s.

(** The class of the strength bar, by the colour in the state. *)
Definition barClass (color : jsstring) : string :=
  if bool_decide (color = str "red") then "bg-red-500"
  else if bool_decide (color = str "yellow") then "bg-yellow-500"
  else if bool_decide (color = str "green") then "bg-green-500"
  else "bg-gray-300".

(** The class of the strength text, by the colour in the state. *)
Definition textClass (color : jsstring) : string :=
  if bool_decide (color = str "red") then "text-red-500"
  else if bool_decide (color = str "yellow") then "text-yellow-600"
  else if bool_decide (color = str "green") then "text-green-500"
  else "text-gray-500".

(** [{formData.password && (...)}]: the class of the bar, the class of the
    text and the text (the width of the bar is left out). *)
Definition strengthIndicator (s : State) : option (string * string * jsstring) :=
  if falsy_string (Signup.password (formData s)) then None
  else
    Some (barClass (color (passwordStrength s)),
          textClass (color (passwordStrength s)),
          message (passwordStrength s)).

(** [{formData.password && formData.confirmPassword && (...)}]: the class
    of the hint and its text. *)
Definition matchHint (f : Signup.FormData) : option (string * jsstring) :=
  if falsy_string (Signup.password f) then None
  else if falsy_string (Signup.confirmPassword f) then None
  else if bool_decide (Signup.password f = Signup.confirmPassword f)
  then Some ("text-green-500", str "Passwords match")
  else Some ("text-red-500", str "Passwords do not match").

(** The closure of the render that shows this state. *)
Definition closure (s : State) (state : option LocationState)
    : Signup.Closure :=
  {| Signup.formData := formData s; Signup.role := role s;
     Signup.location_state := state |}.

End SignupInputs.

Definition is_settle {Closure} (ev : @Event Closure) : bool :=
  match ev with Settle _ => true | _ => false end.

Definition is_alert (e : Element) : bool :=
  match e with Alert _ => true | _ => false end.

(** The number of occurrences of a character in a string. *)
Definition occurrences (a : ascii) (s : jsstring) : nat :=
  length (List.filter (is_char a) s).

(** * Properties *)

(** ** The matcher decides the language of the pattern *)

Section RegexTheory.

Lemma lang_void_inv s : lang Void s -> False.
Proof. inversion 1. Qed.

Lemma lang_eps_inv s : lang Eps s -> s = [].
Proof. by inversion 1. Qed.

Lemma lang_class_inv p s : lang (Class p) s -> exists c, s = [c] /\ p c = true.
Proof. inversion 1; subst; eauto. Qed.

Lemma lang_cat_inv r1 r2 s :
  lang (Cat r1 r2) s -> exists s1 s2, s = s1 ++ s2 /\ lang r1 s1 /\ lang r2 s2.
Proof. inversion 1; subst; eauto. Qed.

Lemma lang_alt_inv r1 r2 s : lang (Alt r1 r2) s -> lang r1 s \/ lang r2 s.
Proof. inversion 1; subst; auto. Qed.

(** A non-empty word of [r*] starts with a non-empty word of [r]. *)
Lemma lang_star_cons_inv r c s :
  lang (Star r) (c :: s) ->
  exists s1 s2, s = s1 ++ s2 /\ lang r (c :: s1) /\ lang (Star r) s2.
Proof.
  intros H. remember (Star r) as r' eqn:Er. remember (c :: s) as w eqn:Ew.
  induction H as [| | | | | |r0 s1 s2 H1 _ H2 IH2]; try discriminate.
  injection Er as ->.
  destruct s1 as [|c1 s1]; simpl in Ew.
  - by apply IH2.
  - injection Ew as -> <-. eauto.
Qed.

Lemma nullable_lang r : nullable r = true <-> lang r [].
Proof.
  induction r as [| |p|r1 IH1 r2 IH2|r1 IH1 r2 IH2|r IH]; simpl.
  - split; [done | by intros ?%lang_void_inv].
  - split; [constructor | done].
  - split; [done | by intros (c & ? & _)%lang_class_inv].
  - rewrite andb_true_iff, IH1, IH2. split.
    + intros [H1 H2]. by apply (lang_cat r1 r2 [] []).
    + intros (s1 & s2 & E & H1 & H2)%lang_cat_inv.
      symmetry in E. apply app_eq_nil in E as [-> ->]. done.
  - rewrite orb_true_iff, IH1, IH2. split.
    + intros [H|H]; [by apply lang_alt_l | by apply lang_alt_r].
    + apply lang_alt_inv.
  - split; [constructor | done].
Qed.

Lemma deriv_lang c r : forall s, lang (deriv c r) s <-> lang r (c :: s).
Proof.
  induction r as [| |p|r1 IH1 r2 IH2|r1 IH1 r2 IH2|r IH]; intros s; simpl.
  - split; inversion 1.
  - split; inversion 1.
  - destruct (p c) eqn:Hp; split.
    + intros ->%lang_eps_inv. by constructor.
    + intros (c' & [= <- ->] & _)%lang_class_inv. constructor.
    + by intros ?%lang_void_inv.
    + intros (c' & [= <- ->] & Hc)%lang_class_inv. congruence.
  - assert (Hcat : lang (Cat (deriv c r1) r2) s ->
                   lang (Cat r1 r2) (c :: s)).
    { intros (s1 & s2 & -> & H1 & H2)%lang_cat_inv.
      apply IH1 in H1. by apply (lang_cat r1 r2 (c :: s1) s2). }
    assert (Hinv : lang (Cat r1 r2) (c :: s) ->
                   lang (Cat (deriv c r1) r2) s
                   \/ (lang r1 [] /\ lang r2 (c :: s))).
    { intros (s1 & s2 & E & H1 & H2)%lang_cat_inv.
      destruct s1 as [|c1 s1]; simpl in E.
      - right. by subst.
      - injection E as <- ->. left. apply lang_cat; [by apply IH1 | done]. }
    destruct (nullable r1) eqn:Hn; split.
    + intros [H|H]%lang_alt_inv; [by apply Hcat |].
      apply IH2 in H. apply nullable_lang in Hn.
      by apply (lang_cat r1 r2 [] (c :: s)).
    + intros [H|[_ H]]%Hinv; [by apply lang_alt_l |].
      apply lang_alt_r. by apply IH2.
    + apply Hcat.
    + intros [H|[H _]]%Hinv; [done |].
      apply nullable_lang in H. congruence.
  - split.
    + intros [H|H]%lang_alt_inv;
        [apply lang_alt_l, IH1 | apply lang_alt_r, IH2]; done.
    + intros [H|H]%lang_alt_inv;
        [apply lang_alt_l, IH1 | apply lang_alt_r, IH2]; done.
  - split.
    + intros (s1 & s2 & -> & H1 & H2)%lang_cat_inv.
      apply IH in H1. by apply (lang_star_app r (c :: s1) s2).
    + intros (s1 & s2 & -> & H1 & H2)%lang_star_cons_inv.
      apply lang_cat; [by apply IH | done].
Qed.

Theorem matches_lang r s : matches r s = true <-> lang r s.
Proof.
  revert r. induction s as [|c s IH]; intros r; simpl.
  - apply nullable_lang.
  - rewrite IH. apply deriv_lang.
Qed.

Lemma lang_anything s : lang anything s.
Proof.
  induction s as [|c s IH]; [constructor |].
  apply (lang_star_app _ [c] s); [by constructor | done].
Qed.

(** [/[class]/.test(s)]: some code unit of [s] is in the class. *)
Lemma test_unanchored_class p s :
  test_unanchored (Class p) s = existsb p s.
Proof.
  apply eq_true_iff_eq. unfold test_unanchored.
  rewrite matches_lang, existsb_exists. split.
  - intros (s1 & s' & -> & _ & H)%lang_cat_inv.
    apply lang_cat_inv in H as (s2 & s3 & -> & H & _).
    apply lang_class_inv in H as (c & -> & Hc).
    exists c. split; [| done]. apply in_or_app. right. by left.
  - intros (c & Hin & Hc). apply in_split in Hin as (s1 & s2 & ->).
    apply lang_cat; [apply lang_anything |].
    apply (lang_cat _ _ [c] s2); [by constructor | apply lang_anything].
Qed.

(** [class+] on a whole string: not empty, every code unit in the class. *)
Lemma lang_plus_class p s :
  lang (Plus (Class p)) s <-> s <> [] /\ forallb p s = true.
Proof.
  assert (Hstar : forall t, lang (Star (Class p)) t <-> forallb p t = true).
  { intros t. split.
    - intros H. remember (Star (Class p)) as r eqn:Er.
      induction H as [| | | | | |r0 s1 s2 H1 _ H2 IH2]; try discriminate.
      + done.
      + injection Er as ->.
        apply lang_class_inv in H1 as (c & -> & Hc).
        simpl. rewrite Hc. by apply IH2.
    - induction t as [|c t IH]; simpl; [constructor |].
      intros [Hc Ht]%andb_true_iff.
      apply (lang_star_app _ [c] t); [by constructor | by apply IH]. }
  unfold Plus. split.
  - intros (s1 & s2 & -> & H1 & H2)%lang_cat_inv.
    apply lang_class_inv in H1 as (c & -> & Hc).
    split; [done |]. simpl. rewrite Hc. by apply Hstar.
  - intros [Hne H]. destruct s as [|c s]; [done |].
    simpl in H. apply andb_true_iff in H as [Hc Hs].
    apply (lang_cat _ _ [c] s); [by constructor | by apply Hstar].
Qed.

(** The e-mail pattern: local part, "@", domain, ".", top-level part,
    each non-empty and free of white space and of "@". *)
Theorem emailRegex_shape s :
  matches emailRegex s = true <->
  exists loc dom tld,
    s = loc ++ str "@" ++ dom ++ str "." ++ tld
    /\ (loc <> [] /\ forallb notSpaceAt loc = true)
    /\ (dom <> [] /\ forallb notSpaceAt dom = true)
    /\ (tld <> [] /\ forallb notSpaceAt tld = true).
Proof.
  rewrite matches_lang. unfold emailRegex. split.
  - intros (loc & s1 & -> & Hloc & H)%lang_cat_inv.
    apply lang_cat_inv in H as (at_ & s2 & -> & Hat & H).
    apply lang_cat_inv in H as (dom & s3 & -> & Hdom & H).
    apply lang_cat_inv in H as (dot & tld & -> & Hdot & Htld).
    apply lang_class_inv in Hat as (c & -> & Hc).
    apply lang_class_inv in Hdot as (c' & -> & Hc').
    apply N.eqb_eq in Hc, Hc'. subst c c'.
    exists loc, dom, tld. rewrite <- !lang_plus_class. done.
  - intros (loc & dom & tld & -> & Hloc & Hdom & Htld).
    rewrite <- lang_plus_class in Hloc, Hdom, Htld.
    apply lang_cat; [done |].
    apply (lang_cat _ _ [_]); [by constructor |].
    apply lang_cat; [done |].
    apply (lang_cat _ _ [_]); [by constructor | done].
Qed.

End RegexTheory.

(** ** Strings and effects: the facts the properties use *)

Lemma falsy_string_nil (s : jsstring) : falsy_string s = bool_decide (s = []).
Proof. by destruct s. Qed.

Lemma trimStart_whitespace (s : jsstring) :
  forallb isWhiteSpace s = true -> trimStart s = [].
Proof.
  induction s as [|c s IH]; simpl; [done |].
  intros [Hc Hs]%andb_true_iff. rewrite Hc. by apply IH.
Qed.

(** A string of white space only trims to the empty string. *)
Lemma trim_whitespace (s : jsstring) :
  forallb isWhiteSpace s = true -> trim s = [].
Proof.
  intros H. unfold trim. by rewrite (trimStart_whitespace s H).
Qed.

Lemma run_app es1 es2 w : run (es1 ++ es2) w = run es2 (run es1 w).
Proof. apply fold_left_app. Qed.

Lemma history_last es w : last (history es w) = Some (run es w).
Proof.
  revert w. induction es as [|e es IH]; intros w; simpl; [done |].
  rewrite <- IH. by destruct es.
Qed.

(** Without [localStorage.setItem] the storage stays as it is. *)
Lemma run_storage es w :
  forallb (fun e => negb (is_setItem e)) es = true ->
  storage (run es w) = storage w.
Proof.
  revert w. induction es as [|e es IH]; intros w; simpl; [done |].
  intros [He Hes]%andb_true_iff. unfold run in IH. rewrite IH by done.
  by destruct e.
Qed.

(** The requests made grow by the [fetch] calls of the effects. *)
Lemma run_requests es w :
  length (requests (run es w))
  = length (requests w) + length (List.filter is_fetch es).
Proof.
  revert w. induction es as [|e es IH]; intros w; simpl; [lia |].
  unfold run in IH. rewrite IH.
  destruct e; simpl; rewrite ?length_app; simpl; lia.
Qed.

(** ** Validation *)

(** C5. The checks of signup validation run in the order full name empty,
    e-mail empty, e-mail format, password mismatch, password too short, and
    the handler stops at the first that fails: of all the checks that fail
    on a form, the message shown is that of the first one in this order, it
    is the only one set, and no request is prepared; when none fails the
    handler goes on to the request. *)
Theorem validateSignup_first_failure (c : Signup.Closure) :
  let f := Signup.formData c in
  Signup.validationError f = signupMessage <$> head (failures signupChecks f)
  /\ firstFailure signupChecks f = head (failures signupChecks f)
  /\ match head (failures signupChecks f) with
     | Some e =>
         Signup.handleSubmit c = Done [SetError (str ""); SetError (signupMessage e)]
     | None => exists es k, Signup.handleSubmit c = Await es k
     end.
Proof.
  intros f. unfold Signup.handleSubmit. fold f.
  unfold Signup.validationError, firstFailure, failures, signupChecks.
  cbn [List.find List.filter fst snd].
  rewrite !falsy_string_nil.
  destruct (bool_decide (trim (Signup.fullName f) = [])); [done |].
  destruct (bool_decide (trim (Signup.email f) = [])); [done |].
  destruct (matches emailRegex (Signup.email f)); [| done].
  cbn [negb].
  destruct (decide (Signup.password f = Signup.confirmPassword f)) as [E|E].
  - rewrite (bool_decide_eq_true_2 _ E).
    rewrite (bool_decide_eq_false_2 (_ <> _)) by (intros ?; done).
    cbn [negb].
    destruct (length (Signup.password f) <? 6); [done |].
    split; [done |]. split; [done |]. cbn. eauto.
  - rewrite (bool_decide_eq_false_2 _ E).
    by rewrite (bool_decide_eq_true_2 (_ <> _)).
Qed.

(** C10. Signup measures the length of the password as typed: with a full
    name and an e-mail that pass their checks, a password of six or more
    code units, all of them white space, repeated in the confirmation,
    passes validation and is sent in the registration request. Login trims
    before its emptiness check, and answers a password of white space only
    with the "required" message, without a request. *)
Theorem whitespace_password_signup_vs_login
    (fullName email password : jsstring) (role : JsVal)
    (state : option LocationState) :
  trim fullName <> [] ->
  trim email <> [] ->
  matches emailRegex email = true ->
  forallb isWhiteSpace password = true ->
  6 <= length password ->
  (let c := {| Signup.formData :=
                 {| Signup.fullName := fullName; Signup.email := email;
                    Signup.password := password;
                    Signup.confirmPassword := password |};
               Signup.role := role; Signup.location_state := state |} in
   Signup.validationError (Signup.formData c) = None
   /\ exists k,
       Signup.handleSubmit c =
         Await [SetError (str ""); SetLoading true;
                Fetch "http://localhost:5000/api/auth/register"
                  [("fullName", JString fullName); ("email", JString email);
                   ("password", JString password); ("role", role)]] k)
  /\ (let c := {| Login.email := email; Login.password := password;
                  Login.location_state := state |} in
      Login.validationError c = Some (str "Email and password are required")
      /\ Login.handleSubmit c =
           Done [SetError (str "Email and password are required")]).
Proof.
  intros Hname Hmail Hre Hws Hlen.
  assert (Hv : Signup.validationError
                 {| Signup.fullName := fullName; Signup.email := email;
                    Signup.password := password;
                    Signup.confirmPassword := password |} = None).
  { unfold Signup.validationError. cbn [Signup.fullName Signup.email
      Signup.password Signup.confirmPassword].
    rewrite !falsy_string_nil, Hre.
    rewrite !bool_decide_eq_false_2 by done.
    rewrite bool_decide_eq_true_2 by done. cbn [negb].
    by destruct (Nat.ltb_spec (length password) 6); [lia |]. }
  assert (Hl : Login.validationError
                 {| Login.email := email; Login.password := password;
                    Login.location_state := state |}
               = Some (str "Email and password are required")).
  { unfold Login.validationError. cbn [Login.email Login.password].
    rewrite (trim_whitespace password Hws). cbn [falsy_string].
    by rewrite orb_true_r. }
  split.
  - split; [done |]. unfold Signup.handleSubmit.
    cbn [Signup.formData Signup.role]. rewrite Hv. cbn. eauto.
  - split; [done |]. unfold Login.handleSubmit. by rewrite Hl.
Qed.

Lemma whitespace_password_signup_vs_login_witness :
  Signup.validationError
    {| Signup.fullName := str "Ann"; Signup.email := str "ann@site.org";
       Signup.password := str "      ";
       Signup.confirmPassword := str "      " |} = None
  /\ Login.validationError
       {| Login.email := str "ann@site.org"; Login.password := str "      ";
          Login.location_state := None |}
     = Some (str "Email and password are required").
Proof.
  pose proof (whitespace_password_signup_vs_login
                (str "Ann") (str "ann@site.org") (str "      ")
                (JString (str "user")) None
                ltac:(vm_compute; discriminate)
                ltac:(vm_compute; discriminate)
                ltac:(vm_compute; reflexivity)
                ltac:(vm_compute; reflexivity)
                ltac:(vm_compute; lia)) as [[Hs _] [Hl _]].
  split; [exact Hs | exact Hl].
Defined.

(** ** The strength meter *)

(** C6, as the code has it. For every password the meter's score is the
    number of these that hold: length at least 8, length at least 12, an
    upper-case letter A-Z, a digit, a code unit that is neither a letter
    A-Z, a-z nor a digit; the tier shown is weak below 2, moderate below 4,
    strong from 4 on, and none (score 0) for the empty password. So the
    empty password scores 0/none and "abcdefgh" 1/weak; "Abcdefgh1!" has
    ten code units and scores 4/strong. *)
Theorem evaluatePasswordStrength_score_and_tier :
  (forall password,
     evaluatePasswordStrength password =
       {| score := specScore password;
          message := tierMessage (specTier password);
          color := tierColor (specTier password) |})
  /\ evaluatePasswordStrength (str "") =
       {| score := 0; message := tierMessage none; color := tierColor none |}
  /\ evaluatePasswordStrength (str "abcdefgh") =
       {| score := 1; message := tierMessage weak; color := tierColor weak |}
  /\ evaluatePasswordStrength (str "Abcdefgh1!") =
       {| score := 4; message := tierMessage strong;
          color := tierColor strong |}.
Proof.
  split; [| by vm_compute].
  intros [|c s]; [reflexivity |].
  unfold evaluatePasswordStrength, specTier, specScore.
  cbn [falsy_string]. rewrite !test_unanchored_class.
  destruct (8 <=? length (c :: s)), (12 <=? length (c :: s)),
    (existsb isUpper (c :: s)), (existsb isDigit (c :: s)),
    (existsb isNonAlnum (c :: s)); reflexivity.
Qed.

(** C6, the example as the specification gives it: the meter does not
    score "Abcdefgh1!" 5. *)
Lemma strength_of_Abcdefgh1_is_not_5 :
  score (evaluatePasswordStrength (str "Abcdefgh1!")) <> 5.
Proof. vm_compute. discriminate. Qed.

(** ** Attempts that fail *)

Lemma Login_rejected (c : Login.Closure) (d : ResponseData) :
  try_catch_finally (Login.afterFetch c (Response false (Parsed (JsonObject d))))
    Login.onCatch [SetLoading false]
  = [ConsoleError "Login error:"
       (Error (ToString (js_or (d_message d) (JString (str "Login failed")))));
     SetError (str "An unexpected error occurred. Please try again.");
     SetLoading false].
Proof. reflexivity. Qed.

Lemma Signup_rejected (c : Signup.Closure) (d : ResponseData) :
  try_catch_finally (Signup.afterFetch c (Response false (Parsed (JsonObject d))))
    Signup.onCatch [SetLoading false]
  = [ConsoleError "Registration error:"
       (Error (ToString (js_or (d_message d)
                           (JString (str "Registration failed")))));
     SetError (str "Failed to create an account. Please try again.");
     SetLoading false].
Proof. reflexivity. Qed.

(** Whatever the exception, the [catch] blocks show their own fixed text:
    the message carried by the [Error] goes to the console only. *)
Lemma caught_error_shows_fixed_text (w : World) (o : FetchOutcome) :
  (forall c err,
     authResult (str "Login failed") o = inl err ->
     Login.validationError c = None ->
     error (run (attempt (Login.handleSubmit c) o) w)
     = str "An unexpected error occurred. Please try again.")
  /\ (forall c err,
        authResult (str "Registration failed") o = inl err ->
        Signup.validationError (Signup.formData c) = None ->
        error (run (attempt (Signup.handleSubmit c) o) w)
        = str "Failed to create an account. Please try again.").
Proof.
  split; intros c err Ho Hv.
  - unfold Login.handleSubmit. rewrite Hv.
    destruct o as [|[] [|[|d]]]; try discriminate; reflexivity.
  - unfold Signup.handleSubmit. rewrite Hv.
    destruct o as [|[] [|[|d]]]; try discriminate; reflexivity.
Qed.

(** C1, on the code. The service answers the login of user@site.org with a
    non-success status and the message "Invalid credentials": the outcome
    is Rejected("Invalid credentials"), the [Error] thrown carries that
    message to the console, and the error displayed is the fixed text of
    the [catch] block, not the server's message. *)
Theorem rejected_login_displays_fixed_text :
  let c := {| Login.email := str "user@site.org";
              Login.password := str "secret";
              Login.location_state := None |} in
  let o := Response false
             (Parsed (JsonObject
                {| d_message := JString (str "Invalid credentials");
                   d_token := JUndefined; d_role := JUndefined;
                   d_email := JUndefined |})) in
  let es := attempt (Login.handleSubmit c) o in
  authResult (str "Login failed") o = inl (Rejected (str "Invalid credentials"))
  /\ In (ConsoleError "Login error:" (Error (str "Invalid credentials"))) es
  /\ error (run es (fresh ∅))
     = str "An unexpected error occurred. Please try again."
  /\ error (run es (fresh ∅)) <> str "Invalid credentials".
Proof.
  cbv zeta. split; [reflexivity |]. split.
  - vm_compute. right. right. right. left. reflexivity.
  - split; [by vm_compute |]. vm_compute. discriminate.
Qed.

(** C7. A submission that fails validation, in either form started with
    the loading flag down, runs to its end without a request: in every
    world it passes through the flag is down and the requests made are
    those made before; it ends with the message of the failed check as the
    error. *)
Theorem validation_failure_stays_local (w : World) :
  loading w = false ->
  (forall c msg,
     Login.validationError c = Some msg ->
     exists es,
       Login.handleSubmit c = Done es
       /\ List.filter is_fetch es = []
       /\ Forall (fun w' => loading w' = false /\ requests w' = requests w)
            (history es w)
       /\ error (run es w) = msg)
  /\ (forall c msg,
        Signup.validationError (Signup.formData c) = Some msg ->
        exists es,
          Signup.handleSubmit c = Done es
          /\ List.filter is_fetch es = []
          /\ Forall (fun w' => loading w' = false /\ requests w' = requests w)
               (history es w)
          /\ error (run es w) = msg).
Proof.
  intros Hw. split; intros c msg Hv.
  - exists [SetError msg]. unfold Login.handleSubmit. rewrite Hv.
    repeat split; cbn; repeat constructor; done.
  - exists [SetError (str ""); SetError msg].
    unfold Signup.handleSubmit. rewrite Hv.
    repeat split; cbn; repeat constructor; done.
Qed.

(** Scenario C of the specification: signup with password "abc" twice. *)
Lemma validation_failure_stays_local_witness :
  exists es,
    Signup.handleSubmit
      {| Signup.formData :=
           {| Signup.fullName := str "Ann"; Signup.email := str "ann@site.org";
              Signup.password := str "abc";
              Signup.confirmPassword := str "abc" |};
         Signup.role := JString (str "user");
         Signup.location_state := None |} = Done es
    /\ List.filter is_fetch es = []
    /\ Forall (fun w' => loading w' = false
                         /\ requests w' = requests (fresh ∅))
         (history es (fresh ∅))
    /\ error (run es (fresh ∅))
       = str "Password must be at least 6 characters".
Proof.
  apply (proj2 (validation_failure_stays_local (fresh ∅) eq_refl)).
  vm_compute. reflexivity.
Defined.

(** C8. An attempt that fails, in either form started with the loading
    flag down — because validation fails, or because the outcome of the
    request is Rejected or a TransportError — writes nothing to storage (no
    [setItem] at all, so neither token nor role nor e-mail), and ends with
    the loading flag down. *)
Theorem failed_attempt_writes_no_session (w : World) (o : FetchOutcome) :
  loading w = false ->
  (forall c,
     Login.validationError c <> None
     \/ (exists err, authResult (str "Login failed") o = inl err) ->
     let es := attempt (Login.handleSubmit c) o in
     List.filter is_setItem es = []
     /\ storage (run es w) = storage w
     /\ loading (run es w) = false)
  /\ (forall c,
        Signup.validationError (Signup.formData c) <> None
        \/ (exists err, authResult (str "Registration failed") o = inl err) ->
        let es := attempt (Signup.handleSubmit c) o in
        List.filter is_setItem es = []
        /\ storage (run es w) = storage w
        /\ loading (run es w) = false).
Proof.
  intros Hw. split; intros c Hfail; cbv zeta.
  - unfold Login.handleSubmit.
    destruct (Login.validationError c) as [msg|] eqn:Hv.
    + by cbn.
    + destruct Hfail as [? | [err Ho]]; [done |].
      destruct o as [|[] [|[|d]]]; try discriminate; by cbn.
  - unfold Signup.handleSubmit.
    destruct (Signup.validationError (Signup.formData c)) as [msg|] eqn:Hv.
    + by cbn.
    + destruct Hfail as [? | [err Ho]]; [done |].
      destruct o as [|[] [|[|d]]]; try discriminate; by cbn.
Qed.

(** Scenario D of the specification: login rejected with "Invalid
    credentials". *)
Lemma failed_attempt_writes_no_session_witness :
  let c := {| Login.email := str "user@site.org";
              Login.password := str "secret";
              Login.location_state := None |} in
  let o := Response false
             (Parsed (JsonObject
                {| d_message := JString (str "Invalid credentials");
                   d_token := JUndefined; d_role := JUndefined;
                   d_email := JUndefined |})) in
  let es := attempt (Login.handleSubmit c) o in
  List.filter is_setItem es = []
  /\ storage (run es (fresh ∅)) = storage (fresh ∅)
  /\ loading (run es (fresh ∅)) = false.
Proof.
  cbv zeta.
  apply (proj1 (failed_attempt_writes_no_session (fresh ∅) _ eq_refl)).
  right. eexists. reflexivity.
Defined.

(** ** Attempts that succeed *)

(** C3, as the code has it. After a successful attempt the stored token is
    the token of the response; the stored role is the role of the response
    in login and the role chosen in the form in signup; the stored e-mail
    is, in both, the e-mail typed into the form. *)
Theorem session_written_on_success (w : World) (d : ResponseData) :
  (forall c,
     Login.validationError c = None ->
     storage (run (attempt (Login.handleSubmit c) (success d)) w)
     = <["email" := Login.email c]>
         (<["userRole" := ToString (d_role d)]>
            (<["token" := ToString (d_token d)]> (storage w))))
  /\ (forall c,
        Signup.validationError (Signup.formData c) = None ->
        storage (run (attempt (Signup.handleSubmit c) (success d)) w)
        = <["email" := Signup.email (Signup.formData c)]>
            (<["userRole" := ToString (Signup.role c)]>
               (<["token" := ToString (d_token d)]> (storage w)))).
Proof.
  split; intros c Hv.
  - unfold Login.handleSubmit. rewrite Hv. reflexivity.
  - unfold Signup.handleSubmit. rewrite Hv. reflexivity.
Qed.

Lemma session_written_on_success_witness :
  let d := {| d_message := JUndefined; d_token := JString (str "abc");
              d_role := JString (str "user"); d_email := JUndefined |} in
  let c := {| Login.email := str "user@site.org";
              Login.password := str "secret";
              Login.location_state := None |} in
  storage (run (attempt (Login.handleSubmit c) (success d)) (fresh ∅))
  = <["email" := str "user@site.org"]>
      (<["userRole" := str "user"]> (<["token" := str "abc"]> ∅)).
Proof.
  intros d c.
  exact (proj1 (session_written_on_success (fresh ∅) d) c eq_refl).
Defined.

(** C3, as the specification states it: a login as user@site.org answered
    with the AuthResult (abc, user, other@site.org) does not leave that
    AuthResult in storage; the e-mail stored is the one typed. *)
Lemma stored_session_is_not_the_AuthResult :
  let d := {| d_message := JUndefined; d_token := JString (str "abc");
              d_role := JString (str "user");
              d_email := JString (str "other@site.org") |} in
  let c := {| Login.email := str "user@site.org";
              Login.password := str "secret";
              Login.location_state := None |} in
  let st := storage (run (attempt (Login.handleSubmit c) (success d)) (fresh ∅)) in
  st !! "email" = Some (str "user@site.org")
  /\ ~ session_is_AuthResult st d.
Proof.
  cbv zeta. split; [by vm_compute |].
  intros (_ & _ & H). vm_compute in H. discriminate.
Qed.

Lemma Login_destination (c : Login.Closure) (r : JsVal) :
  (if negb (strict_eq (Login.from c) (JString (str "/")))
   then Login.from c else dashboard r)
  = resolveDestination (optional_chain (Login.location_state c) ls_from) r.
Proof.
  unfold Login.from, resolveDestination, js_or.
  destruct (optional_chain (Login.location_state c) ls_from) as [| |[|ch s]];
    reflexivity.
Qed.

(** C4, as the code has it. After a successful login the one navigation
    made goes to the intended destination of the location state if there is
    one and it is not the root path, and else to the dashboard of the role
    in the response; with "/orders" recorded it goes to "/orders". After a
    successful signup it goes to the dashboard of the role chosen in the
    form, whatever the location state holds. *)
Theorem destination_after_success (w : World) (d : ResponseData) :
  (forall c,
     Login.validationError c = None ->
     destinations (run (attempt (Login.handleSubmit c) (success d)) w)
     = destinations w
       ++ [resolveDestination
             (optional_chain (Login.location_state c) ls_from) (d_role d)])
  /\ (forall role, resolveDestination (JString (str "/orders")) role
                   = JString (str "/orders"))
  /\ (forall c,
        Signup.validationError (Signup.formData c) = None ->
        destinations (run (attempt (Signup.handleSubmit c) (success d)) w)
        = destinations w ++ [dashboard (Signup.role c)]).
Proof.
  split; [| split].
  - intros c Hv. unfold Login.handleSubmit. rewrite Hv.
    rewrite <- Login_destination. reflexivity.
  - intros role. reflexivity.
  - intros c Hv. unfold Signup.handleSubmit. rewrite Hv. reflexivity.
Qed.

(** Scenario B of the specification: login with "/orders" recorded. *)
Lemma destination_after_success_witness :
  let d := {| d_message := JUndefined; d_token := JString (str "abc");
              d_role := JString (str "user"); d_email := JUndefined |} in
  let c := {| Login.email := str "user@site.org";
              Login.password := str "secret";
              Login.location_state :=
                Some {| ls_role := JUndefined;
                        ls_from := JString (str "/orders") |} |} in
  destinations (run (attempt (Login.handleSubmit c) (success d)) (fresh ∅))
  = [JString (str "/orders")].
Proof.
  intros d c.
  exact (proj1 (destination_after_success (fresh ∅) d) c eq_refl).
Defined.

(** C4, as the specification states it for signup: with "/orders" recorded
    in the location state, a successful signup as user navigates to the
    user dashboard and not to the destination the stated order resolves. *)
Lemma signup_ignores_intended_destination :
  let d := {| d_message := JUndefined; d_token := JString (str "abc");
              d_role := JString (str "user"); d_email := JUndefined |} in
  let c := {| Signup.formData :=
                {| Signup.fullName := str "Ann";
                   Signup.email := str "ann@site.org";
                   Signup.password := str "secret1";
                   Signup.confirmPassword := str "secret1" |};
              Signup.role := JString (str "user");
              Signup.location_state :=
                Some {| ls_role := JUndefined;
                        ls_from := JString (str "/orders") |} |} in
  let went :=
    destinations (run (attempt (Signup.handleSubmit c) (success d)) (fresh ∅)) in
  went = [JString (str "/user/dashboard")]
  /\ went <> [resolveDestination
                (optional_chain (Signup.location_state c) ls_from)
                (Signup.role c)].
Proof.
  cbv zeta. split; [by vm_compute |]. vm_compute. discriminate.
Qed.

(** ** Mounting with a session in storage *)

Lemma render_has_form :
  (forall c w, existsb is_form (Login.render c w) = true)
  /\ (forall c w, existsb is_form (Signup.render c w) = true).
Proof.
  split; intros c w.
  - unfold Login.render. by destruct (falsy_string (error w)).
  - unfold Signup.render. by destruct (falsy_string (error w)).
Qed.

(** C9, as the code has it. When either component mounts on a storage that
    holds a non-empty token, its mount effect navigates once, to
    "/admin/dashboard" if the stored role is "admin" and to
    "/user/dashboard" for any other or no stored role. The effect runs
    after the render, and the render returns the form whatever the storage
    holds. *)
Theorem mount_redirects_by_stored_role
    (st : gmap string jsstring) (token : jsstring) :
  st !! "token" = Some token ->
  token <> [] ->
  let target :=
    if bool_decide (st !! "userRole" = Some (str "admin"))
    then JString (str "/admin/dashboard")
    else JString (str "/user/dashboard") in
  checkExistingAuth st = [Navigate target]
  /\ (forall c,
        let s := mounted c st in
        destinations (world s) = [target]
        /\ existsb is_form (Login.render c (world s)) = true)
  /\ (forall c,
        let s := mounted c st in
        destinations (world s) = [target]
        /\ existsb is_form (Signup.render c (world s)) = true).
Proof.
  intros Htok Hne target.
  assert (Hcheck : checkExistingAuth st = [Navigate target]).
  { unfold checkExistingAuth, getItem. rewrite Htok.
    destruct token as [|ch token]; [done |]. cbn [truthy].
    unfold target, dashboard, strict_eq.
    destruct (st !! "userRole") as [v|]; [| reflexivity].
    f_equal. f_equal.
    rewrite (bool_decide_ext (JString v = JString (str "admin"))
               (Some v = Some (str "admin"))); [done |].
    split; congruence. }
  split; [done |].
  split; intros c s; (split; [| apply render_has_form]);
    unfold s, mounted; cbn [world]; rewrite Hcheck; reflexivity.
Qed.

Lemma mount_redirects_by_stored_role_witness :
  checkExistingAuth (<["userRole" := str "admin"]> {["token" := str "abc"]})
  = [Navigate (JString (str "/admin/dashboard"))].
Proof.
  refine (proj1 (mount_redirects_by_stored_role
                   (<["userRole" := str "admin"]> {["token" := str "abc"]})
                   (str "abc") _ _)).
  - vm_compute. reflexivity.
  - discriminate.
Defined.

(** C9, as the specification states it: mounted on a storage holding token
    "abc" and role "admin", the login component redirects to the admin
    dashboard, and the form is in what it renders. *)
Lemma form_is_rendered_before_redirect :
  let st : gmap string jsstring :=
    <["userRole" := str "admin"]> {["token" := str "abc"]} in
  let c := {| Login.email := str ""; Login.password := str "";
              Login.location_state := None |} in
  let s := mounted c st in
  destinations (world s) = [JString (str "/admin/dashboard")]
  /\ existsb is_form (Login.render c (world s)) <> false.
Proof.
  cbv zeta. split; [by vm_compute |]. vm_compute. discriminate.
Qed.

(** ** Submitting while a request is in flight *)

Section OneInFlight.

Context {Closure : Type}.
Variable handleSubmit : Closure -> Run FetchOutcome.
Hypothesis discipline : flag_discipline handleSubmit.

Lemma checkExistingAuth_loading st :
  loading (run (checkExistingAuth st) (fresh st)) = false.
Proof.
  unfold checkExistingAuth. by destruct (truthy (getItem st "token")).
Qed.

Lemma one_in_flight_mounted (c : Closure) st : one_in_flight (mounted c st).
Proof.
  split; [| by constructor]. cbn [mounted waiting world].
  by rewrite checkExistingAuth_loading.
Qed.

Lemma one_in_flight_step (s : FormState) (ev : Event) :
  one_in_flight s -> one_in_flight (step handleSubmit s ev).
Proof.
  intros [Hlen Hks]. destruct ev as [c| |o]; cbn [step].
  - done.
  - unfold submitDisabled.
    destruct (loading (world s)) eqn:Hl;
      [split; [by rewrite Hl | done] |].
    destruct (waiting s) as [|k0 ks] eqn:Hw; [| done].
    pose proof (discipline (inputs s)) as Hd.
    destruct (handleSubmit (inputs s)) as [es|es k].
    + destruct (Hd (world s)) as [Hd1 _].
      split; cbn [world waiting]; [by rewrite Hd1, Hl | done].
    + destruct Hd as [Hd1 Hk]. destruct (Hd1 (world s)) as [Hd2 _].
      split; cbn [world waiting app].
      * by rewrite Hd2.
      * by apply Forall_singleton.
  - destruct (waiting s) as [|k ks] eqn:Hw; [by split; rewrite Hw |].
    apply Forall_cons in Hks as [Hk Hks].
    destruct (Hk o (world s)) as [Hk1 _].
    destruct (loading (world s)); [| done].
    destruct ks; [| done].
    split; cbn [world waiting]; [by rewrite Hk1 | done].
Qed.

Lemma one_in_flight_exec (evs : list Event) (s : FormState) :
  one_in_flight s -> one_in_flight (exec handleSubmit evs s).
Proof.
  revert s. induction evs as [|ev evs IH]; intros s Hs; [done |].
  apply IH. by apply one_in_flight_step.
Qed.

(** What a step adds to the requests made. *)
Lemma step_requests (s : FormState) (ev : Event) :
  one_in_flight s ->
  length (requests (world (step handleSubmit s ev)))
  = length (requests (world s))
    + match ev with
      | Submit => if accepted handleSubmit s then 1 else 0
      | _ => 0
      end.
Proof.
  intros [Hlen Hks]. destruct ev as [c| |o]; cbn [step].
  - cbn [world]. lia.
  - unfold accepted, submitDisabled.
    destruct (loading (world s)); cbn [negb andb]; [lia |].
    pose proof (discipline (inputs s)) as Hd.
    destruct (handleSubmit (inputs s)) as [es|es k]; cbn [world].
    + destruct (Hd (world s)) as [_ ->]. lia.
    + destruct Hd as [Hd _]. destruct (Hd (world s)) as [_ ->]. lia.
  - destruct (waiting s) as [|k ks]; [lia |].
    apply Forall_cons in Hks as [Hk _].
    destruct (Hk o (world s)) as [_ Hk2]. cbn [world]. rewrite Hk2. lia.
Qed.

(** In every state a mounted form reaches: a submit while the loading
    flag is up changes nothing; at most one request is in flight; a step
    makes one request if it is an accepted submit and none otherwise. *)
Lemma guarded_by_loading (c : Closure) st (evs : list Event) :
  let s := exec handleSubmit evs (mounted c st) in
  (loading (world s) = true -> step handleSubmit s Submit = s)
  /\ length (waiting s) <= 1
  /\ (forall ev,
        length (requests (world (step handleSubmit s ev)))
        = length (requests (world s))
          + match ev with
            | Submit => if accepted handleSubmit s then 1 else 0
            | _ => 0
            end).
Proof.
  intros s.
  assert (Hs : one_in_flight s)
    by apply one_in_flight_exec, one_in_flight_mounted.
  split; [| split].
  - intros Hl. cbn [step]. unfold submitDisabled. by rewrite Hl.
  - destruct Hs as [-> _]. destruct (loading (world s)); lia.
  - intros ev. by apply step_requests.
Qed.

End OneInFlight.

Lemma Login_flag_discipline : flag_discipline Login.handleSubmit.
Proof.
  intros c. unfold Login.handleSubmit.
  destruct (Login.validationError c) as [msg|].
  - intros w. by cbn.
  - split.
    + intros w. cbn. rewrite length_app. cbn. split; [done | lia].
    + intros o w. destruct o as [|[] [|[|d]]]; by cbn.
Qed.

Lemma Signup_flag_discipline : flag_discipline Signup.handleSubmit.
Proof.
  intros c. unfold Signup.handleSubmit.
  destruct (Signup.validationError (Signup.formData c)) as [msg|].
  - intros w. by cbn.
  - split.
    + intros w. cbn. rewrite length_app. cbn. split; [done | lia].
    + intros o w. destruct o as [|[] [|[|d]]]; by cbn.
Qed.

(** C2. In every state that a login or a signup form reaches from its
    mount through edits, submits and settling requests: if the loading flag
    is up, a submit leaves the whole state as it is — the waiting handler,
    the requests made, the error shown; at most one request is in flight;
    and the requests made grow by exactly one on a submit that is accepted
    (flag down, validation passed) and not at all on any other event. *)
Theorem submit_while_loading_is_ignored :
  (forall c st evs,
     let s := exec Login.handleSubmit evs (mounted c st) in
     (loading (world s) = true -> step Login.handleSubmit s Submit = s)
     /\ length (waiting s) <= 1
     /\ (forall ev,
           length (requests (world (step Login.handleSubmit s ev)))
           = length (requests (world s))
             + match ev with
               | Submit => if accepted Login.handleSubmit s then 1 else 0
               | _ => 0
               end))
  /\ (forall c st evs,
        let s := exec Signup.handleSubmit evs (mounted c st) in
        (loading (world s) = true -> step Signup.handleSubmit s Submit = s)
        /\ length (waiting s) <= 1
        /\ (forall ev,
              length (requests (world (step Signup.handleSubmit s ev)))
              = length (requests (world s))
                + match ev with
                  | Submit => if accepted Signup.handleSubmit s then 1 else 0
                  | _ => 0
                  end)).
Proof.
  split; intros c st evs.
  - apply (guarded_by_loading _ Login_flag_discipline).
  - apply (guarded_by_loading _ Signup_flag_discipline).
Qed.

(** A login form after one accepted submit: the flag is up, and a second
    submit leaves the state as it is. *)
Lemma submit_while_loading_is_ignored_witness :
  let c := {| Login.email := str "user@site.org";
              Login.password := str "secret";
              Login.location_state := None |} in
  let s := exec Login.handleSubmit [Submit] (mounted c ∅) in
  loading (world s) = true
  /\ length (requests (world s)) = 1
  /\ step Login.handleSubmit s Submit = s.
Proof.
  intros c s.
  assert (Hl : loading (world s) = true) by (vm_compute; reflexivity).
  split; [exact Hl |]. split; [vm_compute; reflexivity |].
  exact (proj1 (proj1 submit_while_loading_is_ignored c ∅ [Submit]) Hl).
Defined.

(** The guard is the button's: the handler itself does not look at the
    loading flag, and run again on the same inputs it makes its request
    again. *)
Remark handleSubmit_reads_no_flag (c : Login.Closure) (w : World) :
  Login.validationError c = None ->
  loading w = true ->
  length (requests (run (attempt (Login.handleSubmit c) NetworkFailure) w))
  = S (length (requests w)).
Proof.
  intros Hv _. unfold Login.handleSubmit. rewrite Hv. cbn.
  rewrite length_app. cbn. lia.
Qed.

(** * Further properties of the components *)

(** ** What the validation accepts *)

Lemma trimStart_blank (s : jsstring) :
  forallb isWhiteSpace (trimStart s) = true -> forallb isWhiteSpace s = true.
Proof.
  induction s as [|c s IH]; simpl; [done |].
  destruct (isWhiteSpace c) eqn:Hc; [done |].
  simpl. by rewrite Hc.
Qed.

Lemma forallb_rev {A} (p : A -> bool) (l : list A) :
  forallb p (rev l) = forallb p l.
Proof.
  apply eq_true_iff_eq. rewrite !forallb_forall.
  split; intros H x Hx; apply H; [by apply in_rev in Hx | by apply in_rev].
Qed.

Lemma trimStart_nil (s : jsstring) :
  trimStart s = [] -> forallb isWhiteSpace s = true.
Proof.
  induction s as [|c s IH]; simpl; [done |].
  destruct (isWhiteSpace c); [done | discriminate].
Qed.

(** [trim] returns the empty string exactly on strings of white space. *)
Lemma trim_nil_iff (s : jsstring) :
  trim s = [] <-> forallb isWhiteSpace s = true.
Proof.
  split; [| apply trim_whitespace].
  unfold trim, trimEnd. intros H.
  apply (f_equal (@rev N)) in H. rewrite rev_involutive in H. simpl in H.
  apply trimStart_nil in H. rewrite forallb_rev in H.
  by apply trimStart_blank.
Qed.

Lemma falsy_trim (s : jsstring) :
  falsy_string (trim s) = forallb isWhiteSpace s.
Proof.
  apply eq_true_iff_eq. rewrite falsy_string_nil, bool_decide_eq_true.
  apply trim_nil_iff.
Qed.

(** A string without white space is its own [trim]. *)
Lemma trim_no_whitespace (s : jsstring) :
  forallb (fun c => negb (isWhiteSpace c)) s = true -> trim s = s.
Proof.
  assert (Hstart : forall t : jsstring,
             forallb (fun c => negb (isWhiteSpace c)) t = true ->
             trimStart t = t).
  { intros [|c t]; simpl; [done |].
    intros [Hc _]%andb_true_iff. by destruct (isWhiteSpace c). }
  intros H. unfold trim, trimEnd. rewrite (Hstart s H).
  rewrite Hstart by (by rewrite forallb_rev). apply rev_involutive.
Qed.

Lemma notSpaceAt_spec (c : N) :
  notSpaceAt c = true -> isWhiteSpace c = false /\ is_char "@" c = false.
Proof.
  unfold notSpaceAt. intros H%negb_true_iff. by apply orb_false_iff in H.
Qed.

Lemma notSpaceAt_no_whitespace (s : jsstring) :
  forallb notSpaceAt s = true ->
  forallb (fun c => negb (isWhiteSpace c)) s = true
  /\ List.filter (is_char "@") s = [].
Proof.
  induction s as [|c s IH]; simpl; [done |].
  intros [Hc Hs]%andb_true_iff.
  apply notSpaceAt_spec in Hc as [-> ->]. by apply IH.
Qed.

(** An e-mail that matches the pattern splits at its "@" and at a later
    ".". *)
Lemma emailRegex_split (s : jsstring) :
  matches emailRegex s = true ->
  exists loc dom tld,
    s = loc ++ str "@" ++ dom ++ str "." ++ tld
    /\ (loc <> [] /\ forallb notSpaceAt loc = true)
    /\ (dom <> [] /\ forallb notSpaceAt dom = true)
    /\ (tld <> [] /\ forallb notSpaceAt tld = true).
Proof.
  rewrite matches_lang. unfold emailRegex.
  intros (loc & s1 & -> & Hloc & H)%lang_cat_inv.
  apply lang_cat_inv in H as (at_ & s2 & -> & Hat & H).
  apply lang_cat_inv in H as (dom & s3 & -> & Hdom & H).
  apply lang_cat_inv in H as (dot & tld & -> & Hdot & Htld).
  apply lang_class_inv in Hat as (c & -> & Hc).
  apply lang_class_inv in Hdot as (c' & -> & Hc').
  apply N.eqb_eq in Hc, Hc'. subst c c'.
  exists loc, dom, tld. rewrite <- !lang_plus_class. done.
Qed.

Lemma emailRegex_clean (s : jsstring) :
  matches emailRegex s = true ->
  s <> []
  /\ forallb (fun c => negb (isWhiteSpace c)) s = true
  /\ occurrences "@" s = 1.
Proof.
  intros (loc & dom & tld & -> & [Hl Hloc] & [_ Hdom] & [_ Htld])%emailRegex_split.
  apply notSpaceAt_no_whitespace in Hloc as [Hloc1 Hloc2].
  apply notSpaceAt_no_whitespace in Hdom as [Hdom1 Hdom2].
  apply notSpaceAt_no_whitespace in Htld as [Htld1 Htld2].
  split; [by destruct loc |]. split.
  - rewrite !forallb_app, Hloc1, Hdom1, Htld1. reflexivity.
  - unfold occurrences.
    rewrite !List.filter_app, Hloc2, Hdom2, Htld2. reflexivity.
Qed.

Lemma emailRegex_not_blank (s : jsstring) :
  matches emailRegex s = true -> falsy_string (trim s) = false.
Proof.
  intros (Hne & Hws & _)%emailRegex_clean.
  rewrite (trim_no_whitespace s Hws). by destruct s.
Qed.

(** An e-mail that passes the format check of signup has no white space
    anywhere and exactly one "@", and trimming it changes nothing: what
    signup sends and stores is the address as checked. *)
Theorem accepted_email_is_clean (s : jsstring) :
  matches emailRegex s = true ->
  forallb (fun c => negb (isWhiteSpace c)) s = true
  /\ occurrences "@" s = 1
  /\ trim s = s
  /\ s <> [].
Proof.
  intros (Hne & Hws & Hat)%emailRegex_clean.
  split; [done |]. split; [done |]. split; [| done].
  by apply trim_no_whitespace.
Qed.

Lemma accepted_email_is_clean_witness :
  occurrences "@" (str "ann@site.org") = 1
  /\ trim (str "ann@site.org") = str "ann@site.org".
Proof.
  destruct (accepted_email_is_clean (str "ann@site.org")) as (_ & H1 & H2 & _).
  - vm_compute. reflexivity.
  - split; [exact H1 | exact H2].
Defined.

(** Login lets a submission through exactly when the e-mail and the
    password each hold a code unit that is not white space. *)
Theorem login_validation_passes_iff (c : Login.Closure) :
  Login.validationError c = None
  <-> forallb isWhiteSpace (Login.email c) = false
      /\ forallb isWhiteSpace (Login.password c) = false.
Proof.
  unfold Login.validationError. rewrite !falsy_trim.
  destruct (forallb isWhiteSpace (Login.email c)),
    (forallb isWhiteSpace (Login.password c)); cbn; split; try done;
    by intros [? ?].
Qed.

(** Signup lets a submission through exactly when the full name is not
    blank, the e-mail matches the pattern, the two passwords are equal and
    the password has six code units or more. The "Email is required" check
    adds nothing to this: every e-mail it stops fails the pattern too. *)
Theorem signup_validation_passes_iff (f : Signup.FormData) :
  Signup.validationError f = None
  <-> forallb isWhiteSpace (Signup.fullName f) = false
      /\ matches emailRegex (Signup.email f) = true
      /\ Signup.password f = Signup.confirmPassword f
      /\ 6 <= length (Signup.password f).
Proof.
  unfold Signup.validationError. rewrite !falsy_trim.
  destruct (forallb isWhiteSpace (Signup.fullName f));
    [split; [done | by intros [? _]] |].
  destruct (matches emailRegex (Signup.email f)) eqn:Hre.
  - apply emailRegex_not_blank in Hre. rewrite falsy_trim in Hre.
    rewrite Hre. cbn [negb].
    destruct (decide (Signup.password f = Signup.confirmPassword f)) as [E|E].
    + rewrite (bool_decide_eq_true_2 _ E). cbn [negb].
      destruct (Nat.ltb_spec (length (Signup.password f)) 6).
      * split; [done | intros (_ & _ & _ & ?); lia].
      * done.
    + rewrite (bool_decide_eq_false_2 _ E). cbn [negb].
      split; [done | by intros (_ & _ & ? & _)].
  - destruct (forallb isWhiteSpace (Signup.email f));
      (split; [done | by intros (_ & ? & _)]).
Qed.

(** ** What the strength meter can show *)

(** The score of the meter is at most 5, and the meter shows no message
    exactly for the empty password. *)
Theorem strength_score_at_most_5 (password : jsstring) :
  score (evaluatePasswordStrength password) <= 5
  /\ (message (evaluatePasswordStrength password) = str ""
      <-> password = []).
Proof.
  destruct password as [|c s]; [by split; [cbn; lia |] |].
  unfold evaluatePasswordStrength. cbn [falsy_string].
  destruct (8 <=? length (c :: s)), (12 <=? length (c :: s)),
    (test_unanchored (Class isUpper) (c :: s)),
    (test_unanchored (Class isDigit) (c :: s)),
    (test_unanchored (Class isNonAlnum) (c :: s));
    cbn; (split; [lia | split; discriminate]).
Qed.

(** Length alone bounds the tier: a password shorter than 8 scores at most
    3 and is never shown as Strong; a password of 12 or more scores at
    least 2 and is never shown as Weak. *)
Theorem strength_limits_by_length (password : jsstring) :
  (length password < 8 ->
   score (evaluatePasswordStrength password) <= 3
   /\ message (evaluatePasswordStrength password) <> str "Strong")
  /\ (12 <= length password ->
      2 <= score (evaluatePasswordStrength password)
      /\ message (evaluatePasswordStrength password) <> str "Weak").
Proof.
  destruct password as [|c s]; [split; [by cbn; split; [lia |] | cbn; lia] |].
  unfold evaluatePasswordStrength. cbn [falsy_string].
  destruct (Nat.leb_spec 8 (length (c :: s))),
    (Nat.leb_spec 12 (length (c :: s)));
    destruct (test_unanchored (Class isUpper) (c :: s)),
      (test_unanchored (Class isDigit) (c :: s)),
      (test_unanchored (Class isNonAlnum) (c :: s));
    cbn [bump]; split; intros Hlen; try lia; cbn; (split; [lia | discriminate]).
Qed.

Lemma strength_limits_by_length_witness :
  message (evaluatePasswordStrength (str "Ab1!")) <> str "Strong"
  /\ message (evaluatePasswordStrength (str "abcdefghijkl")) <> str "Weak".
Proof.
  split.
  - refine (proj2 (proj1 (strength_limits_by_length (str "Ab1!")) _)).
    vm_compute. lia.
  - refine (proj2 (proj2 (strength_limits_by_length (str "abcdefghijkl")) _)).
    vm_compute. lia.
Defined.

(** The message and the colour of the meter are those of the tier. *)
Lemma meter_shows_tier (password : jsstring) :
  message (evaluatePasswordStrength password) = tierMessage (specTier password)
  /\ color (evaluatePasswordStrength password) = tierColor (specTier password).
Proof.
  destruct password as [|c s]; [done |].
  unfold evaluatePasswordStrength, specTier, specScore.
  cbn [falsy_string]. rewrite !test_unanchored_class.
  destruct (8 <=? length (c :: s)), (12 <=? length (c :: s)),
    (existsb isUpper (c :: s)), (existsb isDigit (c :: s)),
    (existsb isNonAlnum (c :: s)); done.
Qed.

(** ** The inputs of the signup form *)

Lemma handleChange_keeps_sync (i : SignupInputs.Input) (s : SignupInputs.State) :
  SignupInputs.passwordStrength s
  = evaluatePasswordStrength (Signup.password (SignupInputs.formData s)) ->
  SignupInputs.passwordStrength (SignupInputs.input s i)
  = evaluatePasswordStrength
      (Signup.password (SignupInputs.formData (SignupInputs.input s i))).
Proof.
  intros H. destruct i as [name value|value]; cbn; [| done].
  by destruct (bool_decide (name = "password")).
Qed.

Lemma inputs_keep_sync (ins : list SignupInputs.Input) (s : SignupInputs.State) :
  SignupInputs.passwordStrength s
  = evaluatePasswordStrength (Signup.password (SignupInputs.formData s)) ->
  SignupInputs.passwordStrength (SignupInputs.inputs ins s)
  = evaluatePasswordStrength
      (Signup.password (SignupInputs.formData (SignupInputs.inputs ins s))).
Proof.
  revert s. induction ins as [|i ins IH]; intros s Hs; [done |].
  apply IH. by apply handleChange_keeps_sync.
Qed.

(** Whatever the user types and selects after the mount, the strength kept
    in the state is the strength of the password now in the form, although
    it is recomputed on changes of the password field only. The indicator
    is therefore shown exactly for a non-empty password, in the red, yellow
    or green classes with the message of its tier: the gray classes of the
    JSX are never shown. *)
Theorem strength_indicator_follows_password
    (state : option LocationState) (ins : list SignupInputs.Input) :
  let s := SignupInputs.inputs ins (SignupInputs.initial state) in
  let password := Signup.password (SignupInputs.formData s) in
  SignupInputs.passwordStrength s = evaluatePasswordStrength password
  /\ SignupInputs.strengthIndicator s =
       match specTier password with
       | none => None
       | weak => Some ("bg-red-500", "text-red-500", str "Weak")
       | moderate => Some ("bg-yellow-500", "text-yellow-600", str "Moderate")
       | strong => Some ("bg-green-500", "text-green-500", str "Strong")
       end.
Proof.
  intros s password.
  assert (Hsync : SignupInputs.passwordStrength s
                  = evaluatePasswordStrength password)
    by (by apply inputs_keep_sync).
  split; [done |].
  unfold SignupInputs.strengthIndicator. fold password. rewrite Hsync.
  destruct (meter_shows_tier password) as [-> ->].
  destruct password as [|c p]; [done |]. cbn [falsy_string].
  unfold specTier.
  destruct (specScore (c :: p) <? 2); [reflexivity |].
  destruct (specScore (c :: p) <? 4); reflexivity.
Qed.

(** The match hint under the confirmation field never contradicts the
    validation: when it reads "Passwords do not match" the submission is
    stopped, by the mismatch or by an earlier check and never by the length
    check; when it reads "Passwords match" the validation does not report a
    mismatch. The hint is hidden while either field is empty. *)
Theorem match_hint_agrees_with_validation (f : Signup.FormData) :
  (SignupInputs.matchHint f
   = Some ("text-red-500", str "Passwords do not match") ->
   exists msg, Signup.validationError f = Some msg
               /\ msg <> str "Password must be at least 6 characters")
  /\ (SignupInputs.matchHint f = Some ("text-green-500", str "Passwords match") ->
      Signup.validationError f <> Some (str "Passwords do not match"))
  /\ (SignupInputs.matchHint f = None
      <-> Signup.password f = [] \/ Signup.confirmPassword f = []).
Proof.
  unfold SignupInputs.matchHint, Signup.validationError.
  rewrite !(falsy_string_nil (Signup.password f)),
    !(falsy_string_nil (Signup.confirmPassword f)).
  destruct (decide (Signup.password f = [])) as [Hp|Hp];
    [rewrite (bool_decide_eq_true_2 _ Hp)
    |rewrite (bool_decide_eq_false_2 _ Hp)].
  { split; [done |]. split; [done |]. split; auto. }
  destruct (decide (Signup.confirmPassword f = [])) as [Hc|Hc];
    [rewrite (bool_decide_eq_true_2 _ Hc)
    |rewrite (bool_decide_eq_false_2 _ Hc)].
  { split; [done |]. split; [done |]. split; auto. }
  destruct (decide (Signup.password f = Signup.confirmPassword f)) as [E|E];
    [rewrite (bool_decide_eq_true_2 _ E)
    |rewrite (bool_decide_eq_false_2 _ E)]; cbn [negb].
  - split; [done |]. split; [| split; [done | by intros [?|?]]].
    intros _.
    destruct (falsy_string (trim (Signup.fullName f))); [done |].
    destruct (falsy_string (trim (Signup.email f))); [done |].
    destruct (matches emailRegex (Signup.email f)); [| done]. cbn [negb].
    by destruct (length (Signup.password f) <? 6).
  - split; [| split; [done | split; [done | by intros [?|?]]]].
    intros _.
    destruct (falsy_string (trim (Signup.fullName f)));
      [by eexists; split |].
    destruct (falsy_string (trim (Signup.email f)));
      [by eexists; split |].
    destruct (matches emailRegex (Signup.email f)); by eexists; split.
Qed.

Lemma match_hint_agrees_with_validation_witness :
  exists msg,
    Signup.validationError
      {| Signup.fullName := str "Ann"; Signup.email := str "ann@site.org";
         Signup.password := str "secret1";
         Signup.confirmPassword := str "secret2" |} = Some msg
    /\ msg <> str "Password must be at least 6 characters".
Proof.
  refine (proj1 (match_hint_agrees_with_validation _) _).
  vm_compute. reflexivity.
Defined.

(** ** An attempt, whatever its outcome *)

Ltac by_outcome o :=
  destruct o as [|[] [|[|?]]]; try reflexivity.

(** Once validation has passed, the loading flag is down at the end of
    the attempt whatever the outcome, success included; a submission
    stopped by validation leaves the flag as it found it. *)
Theorem loading_after_attempt (o : FetchOutcome) (w : World) :
  (forall c,
     loading (run (attempt (Login.handleSubmit c) o) w)
     = match Login.validationError c with
       | Some _ => loading w
       | None => false
       end)
  /\ (forall c,
        loading (run (attempt (Signup.handleSubmit c) o) w)
        = match Signup.validationError (Signup.formData c) with
          | Some _ => loading w
          | None => false
          end).
Proof.
  split; intros c.
  - unfold Login.handleSubmit.
    destruct (Login.validationError c); [reflexivity | by_outcome o].
  - unfold Signup.handleSubmit.
    destruct (Signup.validationError (Signup.formData c));
      [reflexivity | by_outcome o].
Qed.

(** The error shown at the end of an attempt: the message of the failed
    check; nothing after a success, an error shown before being cleared;
    the fixed text of the [catch] block after any failure of the request,
    with nothing of the exception in it. *)
Theorem error_after_attempt (o : FetchOutcome) (w : World) :
  (forall c,
     error (run (attempt (Login.handleSubmit c) o) w)
     = match Login.validationError c with
       | Some msg => msg
       | None =>
           match authResult (str "Login failed") o with
           | inr _ => str ""
           | inl _ => str "An unexpected error occurred. Please try again."
           end
       end)
  /\ (forall c,
        error (run (attempt (Signup.handleSubmit c) o) w)
        = match Signup.validationError (Signup.formData c) with
          | Some msg => msg
          | None =>
              match authResult (str "Registration failed") o with
              | inr _ => str ""
              | inl _ => str "Failed to create an account. Please try again."
              end
          end).
Proof.
  split; intros c.
  - unfold Login.handleSubmit.
    destruct (Login.validationError c); [reflexivity | by_outcome o].
  - unfold Signup.handleSubmit.
    destruct (Signup.validationError (Signup.formData c));
      [reflexivity | by_outcome o].
Qed.

(** A handler navigates once, after a success, and never otherwise: not
    when validation stops the submission, and not when the request fails
    in any way. *)
Theorem navigates_only_on_success (o : FetchOutcome) (w : World) :
  (forall c,
     destinations (run (attempt (Login.handleSubmit c) o) w)
     = destinations w
       ++ match Login.validationError c, authResult (str "Login failed") o with
          | None, inr d =>
              [resolveDestination
                 (optional_chain (Login.location_state c) ls_from) (d_role d)]
          | _, _ => []
          end)
  /\ (forall c,
        destinations (run (attempt (Signup.handleSubmit c) o) w)
        = destinations w
          ++ match Signup.validationError (Signup.formData c),
                   authResult (str "Registration failed") o with
             | None, inr _ => [dashboard (Signup.role c)]
             | _, _ => []
             end).
Proof.
  split; intros c.
  - unfold Login.handleSubmit.
    destruct (Login.validationError c);
      [by rewrite app_nil_r | by_outcome o; cbn; rewrite ?app_nil_r; try done].
    rewrite <- Login_destination. reflexivity.
  - unfold Signup.handleSubmit.
    destruct (Signup.validationError (Signup.formData c));
      [by rewrite app_nil_r | by_outcome o; cbn; by rewrite ?app_nil_r].
Qed.

(** An attempt makes one request if validation passes and none if it does
    not; whatever the outcome, the handler does not send again. The
    request carries the inputs as typed, untrimmed. *)
Theorem one_request_per_validated_attempt (o : FetchOutcome) (w : World) :
  (forall c,
     requests (run (attempt (Login.handleSubmit c) o) w)
     = requests w
       ++ match Login.validationError c with
          | Some _ => []
          | None =>
              [("http://localhost:5000/api/auth/login",
                [("email", JString (Login.email c));
                 ("password", JString (Login.password c));
                 ("role", Login.role c)])]
          end)
  /\ (forall c,
        requests (run (attempt (Signup.handleSubmit c) o) w)
        = requests w
          ++ match Signup.validationError (Signup.formData c) with
             | Some _ => []
             | None =>
                 [("http://localhost:5000/api/auth/register",
                   [("fullName", JString (Signup.fullName (Signup.formData c)));
                    ("email", JString (Signup.email (Signup.formData c)));
                    ("password", JString (Signup.password (Signup.formData c)));
                    ("role", Signup.role c)])]
             end).
Proof.
  split; intros c.
  - unfold Login.handleSubmit.
    destruct (Login.validationError c);
      [by rewrite app_nil_r | by_outcome o].
  - unfold Signup.handleSubmit.
    destruct (Signup.validationError (Signup.formData c));
      [by rewrite app_nil_r | by_outcome o].
Qed.

(** The handlers write the keys "token", "userRole" and "email" and no
    other: every other entry of the storage is after the attempt what it
    was before, whatever the outcome. *)
Theorem other_storage_keys_untouched
    (o : FetchOutcome) (w : World) (key : string) :
  key <> "token" -> key <> "userRole" -> key <> "email" ->
  (forall c,
     storage (run (attempt (Login.handleSubmit c) o) w) !! key
     = storage w !! key)
  /\ (forall c,
        storage (run (attempt (Signup.handleSubmit c) o) w) !! key
        = storage w !! key).
Proof.
  intros Ht Hr He. split; intros c.
  - unfold Login.handleSubmit.
    destruct (Login.validationError c); [reflexivity | by_outcome o].
    cbn. by rewrite !lookup_insert_ne.
  - unfold Signup.handleSubmit.
    destruct (Signup.validationError (Signup.formData c));
      [reflexivity | by_outcome o].
    cbn. by rewrite !lookup_insert_ne.
Qed.

Lemma other_storage_keys_untouched_witness :
  storage
    (run (attempt
            (Login.handleSubmit
               {| Login.email := str "user@site.org";
                  Login.password := str "secret";
                  Login.location_state := None |})
            (success {| d_message := JUndefined;
                        d_token := JString (str "abc");
                        d_role := JString (str "user");
                        d_email := JUndefined |}))
       (fresh {["theme" := str "dark"]})) !! "theme"
  = Some (str "dark").
Proof.
  refine (proj1 (other_storage_keys_untouched _ (fresh {["theme" := str "dark"]})
                   "theme" _ _ _) _); discriminate.
Defined.




(** ** A mounted form, over its whole life *)

Section WhileLoading.

Context {Closure : Type}.
Variable handleSubmit : Closure -> Run FetchOutcome.
Hypothesis discipline : flag_discipline handleSubmit.
Hypothesis clears_error :
  forall c es k, handleSubmit c = Await es k -> forall w, error (run es w) = [].

Lemma no_error_while_loading_step (s : FormState) (ev : Event) :
  one_in_flight s ->
  (loading (world s) = true -> error (world s) = []) ->
  loading (world (step handleSubmit s ev)) = true ->
  error (world (step handleSubmit s ev)) = [].
Proof.
  intros [Hlen Hks] Hs. destruct ev as [c| |o]; cbn [step].
  - done.
  - unfold submitDisabled. destruct (loading (world s)) eqn:Hl; [auto |].
    pose proof (discipline (inputs s)) as Hd.
    destruct (handleSubmit (inputs s)) as [es|es k] eqn:Hh; cbn [world].
    + destruct (Hd (world s)) as [Hd1 _]. rewrite Hd1, Hl. done.
    + intros _. by apply (clears_error _ _ _ Hh).
  - destruct (waiting s) as [|k ks]; [done |].
    apply Forall_cons in Hks as [Hk _].
    destruct (Hk o (world s)) as [Hk1 _]. cbn [world]. by rewrite Hk1.
Qed.

Lemma no_error_while_loading_exec (evs : list Event) (s : FormState) :
  one_in_flight s ->
  (loading (world s) = true -> error (world s) = []) ->
  loading (world (exec handleSubmit evs s)) = true ->
  error (world (exec handleSubmit evs s)) = [].
Proof.
  revert s. induction evs as [|ev evs IH]; intros s Hs He; [done |].
  apply IH.
  - by apply one_in_flight_step.
  - by apply no_error_while_loading_step.
Qed.

(** Requests made against requests settled, along a run of events. *)
Lemma requests_against_settled_step (s : FormState) (ev : Event) :
  one_in_flight s ->
  length (requests (world (step handleSubmit s ev))) + length (waiting s)
  <= length (requests (world s)) + length (waiting (step handleSubmit s ev))
     + (if is_settle ev then 1 else 0).
Proof.
  intros [Hlen Hks]. destruct ev as [c| |o]; cbn [step is_settle].
  - cbn [world waiting]. lia.
  - unfold submitDisabled. destruct (loading (world s)); [lia |].
    pose proof (discipline (inputs s)) as Hd.
    destruct (handleSubmit (inputs s)) as [es|es k]; cbn [world waiting].
    + destruct (Hd (world s)) as [_ ->]. lia.
    + destruct Hd as [Hd _]. destruct (Hd (world s)) as [_ ->].
      rewrite length_app. cbn. lia.
  - destruct (waiting s) as [|k ks] eqn:Hw; [rewrite Hw; cbn; lia |].
    apply Forall_cons in Hks as [Hk _].
    destruct (Hk o (world s)) as [_ Hk2]. cbn [world waiting length].
    rewrite Hk2. lia.
Qed.

Lemma requests_against_settled_exec (evs : list Event) (s : FormState) :
  one_in_flight s ->
  length (requests (world (exec handleSubmit evs s))) + length (waiting s)
  <= length (requests (world s))
     + length (waiting (exec handleSubmit evs s))
     + length (List.filter is_settle evs).
Proof.
  revert s. induction evs as [|ev evs IH]; intros s Hs; [cbn; lia |].
  pose proof (requests_against_settled_step s ev Hs) as Hstep.
  pose proof (IH (step handleSubmit s ev)
                (one_in_flight_step handleSubmit discipline s ev Hs)) as Hrest.
  change (exec handleSubmit (ev :: evs) s)
    with (exec handleSubmit evs (step handleSubmit s ev)).
  cbn [List.filter].
  destruct (is_settle ev); cbn [length]; lia.
Qed.

End WhileLoading.

Lemma mounted_requests {Closure} (c : Closure) st :
  requests (world (mounted c st)) = [].
Proof.
  cbn. unfold checkExistingAuth. by destruct (truthy (getItem st "token")).
Qed.

Lemma mounted_error {Closure} (c : Closure) st :
  error (world (mounted c st)) = [].
Proof.
  cbn. unfold checkExistingAuth. by destruct (truthy (getItem st "token")).
Qed.

Lemma Login_clears_error c es k :
  Login.handleSubmit c = Await es k -> forall w, error (run es w) = [].
Proof.
  unfold Login.handleSubmit. destruct (Login.validationError c); [done |].
  by intros [= <- _].
Qed.

Lemma Signup_clears_error c es k :
  Signup.handleSubmit c = Await es k -> forall w, error (run es w) = [].
Proof.
  unfold Signup.handleSubmit.
  destruct (Signup.validationError (Signup.formData c)); [done |].
  by intros [= <- _].
Qed.

(** The loading flag and an error are never up together. In every state
    that a login or a signup form reaches from its mount, while the flag is
    up the error is empty; the render then shows no alert, and the submit
    button is disabled and carries the waiting label. *)
Theorem no_error_while_loading :
  (forall c st evs,
     let s := exec Login.handleSubmit evs (mounted c st) in
     loading (world s) = true ->
     error (world s) = []
     /\ existsb is_alert (Login.render (inputs s) (world s)) = false
     /\ In (Form [Login.email (inputs s); Login.password (inputs s)]
              true (str "Logging in..."))
          (Login.render (inputs s) (world s)))
  /\ (forall c st evs,
        let s := exec Signup.handleSubmit evs (mounted c st) in
        loading (world s) = true ->
        error (world s) = []
        /\ existsb is_alert (Signup.render (inputs s) (world s)) = false
        /\ In (Form [Signup.fullName (Signup.formData (inputs s));
                     Signup.email (Signup.formData (inputs s));
                     Signup.password (Signup.formData (inputs s));
                     Signup.confirmPassword (Signup.formData (inputs s))]
                 true (str "Creating Account..."))
             (Signup.render (inputs s) (world s))).
Proof.
  split; intros c st evs s Hl.
  - assert (He : error (world s) = []).
    { apply (no_error_while_loading_exec _ Login_flag_discipline
               Login_clears_error); [apply one_in_flight_mounted | | done].
      intros _. apply mounted_error. }
    split; [done |]. unfold Login.render. rewrite He, Hl. cbn.
    split; [done | tauto].
  - assert (He : error (world s) = []).
    { apply (no_error_while_loading_exec _ Signup_flag_discipline
               Signup_clears_error); [apply one_in_flight_mounted | | done].
      intros _. apply mounted_error. }
    split; [done |]. unfold Signup.render. rewrite He, Hl. cbn.
    split; [done | tauto].
Qed.

Lemma no_error_while_loading_witness :
  let c := {| Login.email := str "user@site.org";
              Login.password := str "secret";
              Login.location_state := None |} in
  let s := exec Login.handleSubmit
             [Edit {| Login.email := str ""; Login.password := str "";
                      Login.location_state := None |};
              Submit; Edit c; Submit]
             (mounted c ∅) in
  loading (world s) = true /\ error (world s) = [].
Proof.
  intros c s.
  assert (Hl : loading (world s) = true) by (vm_compute; reflexivity).
  split; [exact Hl |].
  exact (proj1 (proj1 no_error_while_loading c ∅ _ Hl)).
Defined.

(** A form never runs ahead of the network: in every state that a login or
    a signup form reaches from its mount, the requests made are at most one
    more than the requests that have settled. *)
Theorem requests_at_most_one_ahead :
  (forall (c : Login.Closure) st evs,
     length (requests (world (exec Login.handleSubmit evs (mounted c st))))
     <= length (List.filter is_settle evs) + 1)
  /\ (forall (c : Signup.Closure) st evs,
        length (requests (world (exec Signup.handleSubmit evs (mounted c st))))
        <= length (List.filter is_settle evs) + 1).
Proof.
  split; intros c st evs.
  - pose proof (requests_against_settled_exec _ Login_flag_discipline evs
                  (mounted c st) (one_in_flight_mounted c st)) as H.
    pose proof (one_in_flight_exec _ Login_flag_discipline evs
                  (mounted c st) (one_in_flight_mounted c st)) as [Hw _].
    rewrite mounted_requests in H. cbn [mounted waiting length] in H.
    destruct (loading (world (exec Login.handleSubmit evs (mounted c st))));
      lia.
  - pose proof (requests_against_settled_exec _ Signup_flag_discipline evs
                  (mounted c st) (one_in_flight_mounted c st)) as H.
    pose proof (one_in_flight_exec _ Signup_flag_discipline evs
                  (mounted c st) (one_in_flight_mounted c st)) as [Hw _].
    rewrite mounted_requests in H. cbn [mounted waiting length] in H.
    destruct (loading (world (exec Signup.handleSubmit evs (mounted c st))));
      lia.
Qed.
